(** * iPhone photo cleaner: the scan / select / delete pipeline

    A shallow embedding of the pipeline of
    [iphone-photo-cleaner/iphone_photo_cleaner.py]: the two worker
    functions [scan_thread] and [delete_thread], the entry points
    [_scan_photos] and [_delete_selected] that start them, and the part of
    [RetroImageGrid] that holds the per-thumbnail selection.

    Python values are modelled as follows.
    - [str] is [string]; [str.lower] changes the letters A-Z only, which is
      what decides a comparison with the ASCII extensions of the source.
    - [int] counters and indexes are [nat]; a timestamp is a [Z] number of
      seconds; a [datetime] is a day number and a second of the day.
    - An exception is the text [str(e)] it is formatted with; a call that
      can raise returns [Exception + A].
    - The device ([self.afc]) is an abstract state with the four calls the
      source makes; every call may fail and may change the state.
    - Tk widgets, message boxes, status labels and the [logger.info] lines
      outside the loops are left out; the calls of the progress dialog and
      the logger calls inside the loops are kept as events. *)

From Stdlib Require Import String Ascii List ZArith Lia Bool Arith DecimalString Sorted.
Import ListNotations.

Local Open Scope string_scope.
Local Open Scope list_scope.
Local Open Scope nat_scope.

(** ** Python string operations *)

Module PyStr.

(** [c.lower()] on one character: A-Z are moved to a-z. *)
Definition lower_ascii (c : ascii) : ascii :=
  let n := nat_of_ascii c in
  if (65 <=? n) && (n <=? 90) then ascii_of_nat (n + 32) else c.

(** [s.lower()] *)
Fixpoint lower (s : string) : string :=
  match s with
  | EmptyString => EmptyString
  | String c s' => String (lower_ascii c) (lower s')
  end.

(** The characters of [s], last one first. *)
Fixpoint rev_string (s : string) : string :=
  match s with
  | EmptyString => EmptyString
  | String c s' => rev_string s' ++ String c EmptyString
  end.

(** [s.endswith(suffix)] for one suffix: read from the end, [s] starts
    with [suffix]. *)
Definition endswith (s suffix : string) : bool :=
  prefix (rev_string suffix) (rev_string s).

(** [s.endswith((x1, ..., xn))] for a tuple of suffixes. *)
Definition endswith_any (s : string) (suffixes : list string) : bool :=
  existsb (endswith s) suffixes.

(** ['/' in s] *)
Fixpoint has_slash (s : string) : bool :=
  match s with
  | EmptyString => false
  | String c s' => Ascii.eqb c "/" || has_slash s'
  end.

(** [os.path.basename(p)]: what follows the last ['/'] of [p], and [p]
    itself when it has none. *)
Fixpoint basename (p : string) : string :=
  match p with
  | EmptyString => EmptyString
  | String c p' =>
      if has_slash p' then basename p'
      else if Ascii.eqb c "/" then p' else p
  end.

(** [str(n)] for a non-negative [int]. *)
Definition str (n : nat) : string :=
  NilEmpty.string_of_uint (Nat.to_uint n).

End PyStr.

Import PyStr.

(** ** Media classification

    The source tests extensions in three places: the scan keeps a file
    when its lowered name ends with one of eight extensions (line 931),
    and the thumbnail code tells videos and HEIC images apart (lines
    312-313, 987). *)

Inductive MediaKind : Type :=
| Image
| HeicImage
| Video
| Unsupported.

Definition media_extensions : list string :=
  [".jpg"; ".jpeg"; ".png"; ".heic"; ".heif"; ".mov"; ".mp4"; ".m4v"].

Definition video_extensions : list string := [".mov"; ".mp4"; ".m4v"].

Definition heic_extensions : list string := [".heic"; ".heif"].

Definition image_extensions : list string := [".jpg"; ".jpeg"; ".png"].

(** Line 931: [f.lower().endswith(('.jpg', ..., '.m4v'))]. *)
Definition is_media (f : string) : bool :=
  endswith_any (lower f) media_extensions.

(** Line 312: [filename.lower().endswith(('.mov', '.mp4', '.m4v'))]. *)
Definition is_video (filename : string) : bool :=
  endswith_any (lower filename) video_extensions.

(** Line 313: [filename.lower().endswith(('.heic', '.heif'))]. *)
Definition is_heic (filename : string) : bool :=
  endswith_any (lower filename) heic_extensions.

(** The kind of a file, from the three tests of the source: a video when
    [is_video], a HEIC image when [is_heic], an image when the scan's test
    accepts it otherwise, and unsupported when the scan's test rejects it. *)
Definition classify (filename : string) : MediaKind :=
  if is_video filename then Video
  else if is_heic filename then HeicImage
  else if is_media filename then Image
  else Unsupported.

(** ** Data model *)

(** An exception, by the text [str(e)] the source formats it with. *)
Definition Exception : Type := string.

(** The dict [self.afc.stat(path)] returns; a key can be absent. *)
Record StatDict : Type := {
  st_mtime : option Z;
  st_size : option Z
}.

(** A local [datetime]: the day, counted from 1970-01-01, and the second
    of that day. *)
Record datetime : Type := {
  dt_day : Z;
  dt_second : Z
}.

(** [dt.date()], as the day number: the time of day is dropped. *)
Definition datetime_date (dt : datetime) : Z := dt_day dt.

(** Days of 0001-01-01 and of 9999-12-31, the first and the last day a
    [datetime] can hold. *)
Definition MIN_DAY : Z := (-719162)%Z.
Definition MAX_DAY : Z := 2932896%Z.

(** [datetime.fromtimestamp(ts)] in a local time zone [utc_offset] seconds
    east of UTC. It raises when the year leaves 1..9999 (the text of that
    exception varies with the platform and is not reproduced). *)
Definition fromtimestamp (utc_offset ts : Z) : Exception + datetime :=
  let local := (ts + utc_offset)%Z in
  let day := (local / 86400)%Z in
  if ((MIN_DAY <=? day) && (day <=? MAX_DAY))%Z
  then inr {| dt_day := day; dt_second := (local mod 86400)%Z |}
  else inl "year is out of range".

(** An entry of [old_photos] / [self.photos_data] (lines 957-962). *)
Record Photo : Type := {
  path : string;
  filename : string;
  date : datetime;
  size : Z
}.

(** An entry of [RetroImageGrid.thumbnails] (lines 393-398); the widget
    frame is left out and [thumb_selected] is the value of the check box. *)
Record Thumbnail : Type := {
  thumb_path : string;
  thumb_filename : string;
  thumb_selected : bool
}.

(** The fields of the application object the pipeline reads and writes:
    [self.photos_data] and [self.image_grid.thumbnails]. *)
Record App : Type := {
  photos_data : list Photo;
  thumbnails : list Thumbnail
}.

(** ** Effects *)

Inductive Level : Type := DEBUG | INFO | WARNING | ERROR.

(** What the worker does to the outside, in the order it does it. *)
Inductive Event : Type :=
| Listdir (p : string)                              (* self.afc.listdir(p) *)
| Stat (p : string)                                 (* self.afc.stat(p) *)
| GetFileContents (p : string)                      (* self.afc.get_file_contents(p) *)
| Rm (p : string)                                   (* self.afc.rm(p) *)
| UpdateProgress (current total : nat) (message : string)
                                                    (* progress.update_progress(...) *)
| Logged (level : Level) (message : string).        (* logger.<level>(message) *)

(** The device service behind [self.afc]. A call returns its value or the
    exception it raises, and the state the device is left in. *)
Class AfcService (Dev : Type) : Type := {
  afc_listdir : string -> Dev -> (Exception + list string) * Dev;
  afc_stat : string -> Dev -> (Exception + StatDict) * Dev;
  afc_get_file_contents : string -> Dev -> (Exception + list Byte.byte) * Dev;
  afc_rm : string -> Dev -> (Exception + unit) * Dev
}.

(** A computation on the device: its value, the device afterwards and the
    events it emitted. *)
Definition Io (Dev A : Type) : Type := Dev -> A * Dev * list Event.

Definition ret {Dev A : Type} (a : A) : Io Dev A :=
  fun d => (a, d, []).

Definition bind {Dev A B : Type} (m : Io Dev A) (k : A -> Io Dev B) : Io Dev B :=
  fun d =>
    let '(a, d1, e1) := m d in
    let '(b, d2, e2) := k a d1 in
    (b, d2, e1 ++ e2).

Declare Scope io_scope.
Delimit Scope io_scope with io.

Notation "x <- m ;; k" := (bind m (fun x => k))
  (at level 100, m at next level, right associativity) : io_scope.
Notation "m ;; k" := (bind m (fun _ => k))
  (at level 100, right associativity) : io_scope.
Notation "' pat <- m ;; k" := (bind m (fun x => let 'pat := x in k))
  (at level 100, pat pattern, m at next level, right associativity) : io_scope.

Local Open Scope io_scope.

Definition emit {Dev : Type} (e : Event) : Io Dev unit :=
  fun d => (tt, d, [e]).

(** A device call, with its event. *)
Definition call {Dev A : Type} (e : Event) (op : Dev -> (Exception + A) * Dev)
  : Io Dev (Exception + A) :=
  fun d => let '(r, d') := op d in (r, d', [e]).

Definition value_of {Dev A : Type} (m : Io Dev A) (d : Dev) : A := fst (fst (m d)).
Definition device_after {Dev A : Type} (m : Io Dev A) (d : Dev) : Dev := snd (fst (m d)).
Definition events_of {Dev A : Type} (m : Io Dev A) (d : Dev) : list Event := snd (m d).

(** The parts of a trace. *)
Definition progress_of (evs : list Event) : list (nat * nat * string) :=
  flat_map (fun e => match e with
                     | UpdateProgress c t m => [(c, t, m)]
                     | _ => []
                     end) evs.

Definition currents_of (evs : list Event) : list nat :=
  map (fun u => fst (fst u)) (progress_of evs).

Definition rm_calls (evs : list Event) : list string :=
  flat_map (fun e => match e with Rm p => [p] | _ => [] end) evs.

Definition stat_calls (evs : list Event) : list string :=
  flat_map (fun e => match e with Stat p => [p] | _ => [] end) evs.

Definition log_of (evs : list Event) : list (Level * string) :=
  flat_map (fun e => match e with Logged l m => [(l, m)] | _ => [] end) evs.

Definition listdir_calls (evs : list Event) : list string :=
  flat_map (fun e => match e with Listdir p => [p] | _ => [] end) evs.

Definition is_warning (line : Level * string) : bool :=
  match fst line with WARNING => true | _ => false end.

(** The lines logged at level WARNING. *)
Definition warnings (lines : list (Level * string)) : list (Level * string) :=
  filter is_warning lines.

(** ** The pipeline *)

Section Pipeline.

Context {Dev : Type} {afc : AfcService Dev}.

(** The offset of the local time zone, in seconds. *)
Variable utc_offset : Z.

Definition listdir (p : string) : Io Dev (Exception + list string) :=
  call (Listdir p) (afc_listdir p).

Definition stat (p : string) : Io Dev (Exception + StatDict) :=
  call (Stat p) (afc_stat p).

Definition get_file_contents (p : string) : Io Dev (Exception + list Byte.byte) :=
  call (GetFileContents p) (afc_get_file_contents p).

Definition rm (p : string) : Io Dev (Exception + unit) :=
  call (Rm p) (afc_rm p).

Definition update_progress (current total : nat) (message : string) : Io Dev unit :=
  emit (UpdateProgress current total message).

Definition log (level : Level) (message : string) : Io Dev unit :=
  emit (Logged level message).

(** *** RetroImageGrid *)

(** [add_thumbnail]: the new entry goes last, with its box checked
    ([tk.BooleanVar(value=True)]). The picture or the icon that is drawn
    does not reach the entry. *)
Definition add_thumbnail (image_data : list Byte.byte) (name file_path : string)
    (grid : list Thumbnail) : list Thumbnail :=
  grid ++ [{| thumb_path := file_path; thumb_filename := name; thumb_selected := true |}].

(** [get_selected]: [[t for t in self.thumbnails if t["selected"].get()]]. *)
Definition get_selected (grid : list Thumbnail) : list Thumbnail :=
  filter thumb_selected grid.

(** [select_all] / [deselect_all]. *)
Definition set_all (b : bool) (grid : list Thumbnail) : list Thumbnail :=
  map (fun t => {| thumb_path := thumb_path t;
                   thumb_filename := thumb_filename t;
                   thumb_selected := b |}) grid.

Definition select_all : list Thumbnail -> list Thumbnail := set_all true.
Definition deselect_all : list Thumbnail -> list Thumbnail := set_all false.

(** The user ticks or clears the box of thumbnail [idx]. *)
Fixpoint set_selected (idx : nat) (b : bool) (grid : list Thumbnail) : list Thumbnail :=
  match grid, idx with
  | [], _ => []
  | t :: rest, O =>
      {| thumb_path := thumb_path t; thumb_filename := thumb_filename t;
         thumb_selected := b |} :: rest
  | t :: rest, S i => t :: set_selected i b rest
  end.

(** *** scan_thread *)

(** Lines 926-942: the loop over the folders of /DCIM. [i] is the index
    [enumerate] gives to the head of [folders] and [total] is
    [len(dcim_folders)]. The handler ends with [continue], which skips the
    progress update of a folder that could not be listed. *)
Fixpoint folder_loop (total i : nat) (folders : list string)
    (all_photos scan_errors : list string) : Io Dev (list string * list string) :=
  match folders with
  | [] => ret (all_photos, scan_errors)
  | folder :: rest =>
      let folder_path := ("/DCIM/" ++ folder)%string in
      r <- listdir folder_path ;;
      match r with
      | inr files =>
          let found := map (fun f => (folder_path ++ "/" ++ f)%string) (filter is_media files) in
          update_progress (i + 1) total ("Scanning " ++ folder ++ "...") ;;
          folder_loop total (S i) rest (all_photos ++ found) scan_errors
      | inl folder_err =>
          log WARNING ("Error scanning folder " ++ folder ++ ": " ++ folder_err) ;;
          folder_loop total (S i) rest all_photos
            (scan_errors ++ [("Folder " ++ folder ++ ": " ++ folder_err)%string])
      end
  end.

(** Lines 953-954, after the call: [stat['st_mtime']] raises [KeyError]
    when the key is absent, and [fromtimestamp] can raise. *)
Definition read_mtime (st : StatDict) : Exception + datetime :=
  match st_mtime st with
  | None => inl "'st_mtime'"
  | Some ts => fromtimestamp utc_offset ts
  end.

(** What lines 953-954 give, from what [self.afc.stat] answered: the
    exception of either line, or the dict and the date. *)
Definition mtime_of (r : Exception + StatDict) : Exception + (StatDict * datetime) :=
  match r with
  | inl stat_err => inl stat_err
  | inr st =>
      match read_mtime st with
      | inl stat_err => inl stat_err
      | inr mtime => inr (st, mtime)
      end
  end.

(** Lines 953-954: the part of the [try] body that can raise. *)
Definition stat_mtime (photo_path : string) : Io Dev (Exception + (StatDict * datetime)) :=
  r <- stat photo_path ;;
  ret (mtime_of r).

(** Lines 957-962. *)
Definition make_photo (photo_path : string) (st : StatDict) (mtime : datetime) : Photo :=
  {| path := photo_path;
     filename := basename photo_path;
     date := mtime;
     size := match st_size st with Some n => n | None => 0%Z end |}.

(** Lines 951-973: the loop over [all_photos]. The handler ends with
    [continue], so a file whose date could not be read gets no progress
    update; the others get one when [i % 10 == 0]. *)
Fixpoint stat_loop (cutoff_date : Z) (total i : nat) (photos : list string)
    (old_photos : list Photo) (date_check_errors : nat) : Io Dev (list Photo * nat) :=
  match photos with
  | [] => ret (old_photos, date_check_errors)
  | photo_path :: rest =>
      r <- stat_mtime photo_path ;;
      match r with
      | inr (st, mtime) =>
          let old_photos' :=
            if (datetime_date mtime <? cutoff_date)%Z
            then old_photos ++ [make_photo photo_path st mtime]
            else old_photos in
          (if i mod 10 =? 0
           then update_progress (i + 1) total
                  ("Checking dates... Found " ++ str (length old_photos') ++ " old photos")
           else ret tt) ;;
          stat_loop cutoff_date total (S i) rest old_photos' date_check_errors
      | inl stat_err =>
          log DEBUG ("Could not stat " ++ photo_path ++ ": " ++ stat_err) ;;
          stat_loop cutoff_date total (S i) rest old_photos (date_check_errors + 1)
      end
  end.

Definition max_thumbnails : nat := 100.

(** Lines 984-1018: the loop over [old_photos[:max_thumbnails]]. Every
    branch adds one thumbnail, and every turn ends with a progress update.
    The source posts [add_thumbnail] to the Tk loop with [self.after(0, ...)];
    the posts run in the order they are made, and here they run at once. *)
Fixpoint thumbnail_loop (total i : nat) (photos : list Photo) (grid : list Thumbnail)
    : Io Dev (list Thumbnail) :=
  match photos with
  | [] => ret grid
  | photo :: rest =>
      grid' <-
        (if is_video (filename photo)
         then ret (add_thumbnail [] (filename photo) (path photo) grid)
         else
           r <- get_file_contents (path photo) ;;
           match r with
           | inr data => ret (add_thumbnail data (filename photo) (path photo) grid)
           | inl thumb_err =>
               log DEBUG ("Could not load thumbnail for " ++ filename photo ++ ": "
                          ++ thumb_err) ;;
               ret (add_thumbnail [] (filename photo) (path photo) grid)
           end) ;;
      update_progress (i + 1) total "Loading thumbnails..." ;;
      thumbnail_loop total (S i) rest grid'
  end.

(** Line 920: [[f for f in dcim_folders if f not in [".", ".."]]]. *)
Definition real_folders (entries : list string) : list string :=
  filter (fun f => negb (existsb (String.eqb f) ["."; ".."])) entries.

(** The values of the local variables of [scan_thread] when it ends. *)
Record ScanLocals : Type := {
  dcim_folders : list string;
  all_photos : list string;
  old_photos : list Photo;
  scan_errors : list string;
  date_check_errors : nat
}.

(** Lines 914-1076. The function of the source returns nothing: what it
    leaves to its caller is [self.photos_data] and the thumbnails of the
    grid, here the [App] of the result. The second component is there for
    the statements about the run: the locals at the end, or the exception
    that reached the outer handler (only the listing of /DCIM can raise
    outside an inner handler). *)
Definition scan_thread (cutoff_date : Z) (self : App) : Io Dev (App * (Exception + ScanLocals)) :=
  r <- listdir "/DCIM" ;;
  match r with
  | inl e =>
      log ERROR ("Scan failed: " ++ e) ;;
      ret (self, inl e)
  | inr entries =>
      let dcim_folders := real_folders entries in
      '(all_photos, scan_errors) <-
        folder_loop (length dcim_folders) 0 dcim_folders [] [] ;;
      '(old_photos, date_check_errors) <-
        stat_loop cutoff_date (length all_photos) 0 all_photos [] 0 ;;
      (if 0 <? date_check_errors
       then log WARNING ("Could not check dates for " ++ str date_check_errors ++ " files")
       else ret tt) ;;
      grid <- thumbnail_loop (Nat.min (length old_photos) max_thumbnails) 0
                (firstn max_thumbnails old_photos) (thumbnails self) ;;
      ret ({| photos_data := old_photos; thumbnails := grid |},
           inr {| dcim_folders := dcim_folders;
                  all_photos := all_photos;
                  old_photos := old_photos;
                  scan_errors := scan_errors;
                  date_check_errors := date_check_errors |})
  end.

(** Lines 894-1078, for a connected device. [cutoff_date] is what the date
    picker returns: [None] for an invalid date. The grid and
    [self.photos_data] are emptied before the worker starts. *)
Definition _scan_photos (cutoff_date : option Z) (self : App)
    : Io Dev (App * option (Exception + ScanLocals)) :=
  match cutoff_date with
  | None => ret (self, None)
  | Some cutoff =>
      '(self', r) <- scan_thread cutoff {| photos_data := []; thumbnails := [] |} ;;
      ret (self', Some r)
  end.

(** *** delete_thread *)

(** What [delete_thread] has computed when it builds its result message. *)
Record DeleteReport : Type := {
  deleted : nat;
  errors : nat;
  error_files : list string;
  mode : string
}.

(** Lines 1153-1168: the loop over [self.photos_data]. A raised exception
    is logged; only the file name goes to [error_files]. *)
Fixpoint delete_loop (dry_run : bool) (total i : nat) (photos : list Photo)
    (deleted errors : nat) (error_files : list string)
    : Io Dev (nat * nat * list string) :=
  match photos with
  | [] => ret (deleted, errors, error_files)
  | photo :: rest =>
      r <- (if negb dry_run
            then
              r <- rm (path photo) ;;
              match r with
              | inr _ => log INFO ("Deleted: " ++ path photo) ;; ret (inr tt)
              | inl e => ret (inl e)
              end
            else ret (inr tt)) ;;
      '(deleted', errors', error_files') <-
        match r with
        | inr _ => ret (deleted + 1, errors, error_files)
        | inl e =>
            log ERROR ("Failed to delete " ++ path photo ++ ": " ++ e) ;;
            ret (deleted, errors + 1, error_files ++ [filename photo])
        end ;;
      update_progress (i + 1) total
        ((if dry_run then "Simulating" else "Deleting") ++ ": " ++ filename photo) ;;
      delete_loop dry_run total (S i) rest deleted' errors' error_files'
  end.

(** Lines 1148-1205. After a real run that deleted something the grid is
    cleared and [self.photos_data] emptied. *)
Definition delete_thread (dry_run : bool) (self : App) : Io Dev (App * DeleteReport) :=
  '(deleted, errors, error_files) <-
    delete_loop dry_run (length (photos_data self)) 0 (photos_data self) 0 0 [] ;;
  let report := {| deleted := deleted; errors := errors; error_files := error_files;
                   mode := if dry_run then "[DRY RUN] " else "" |} in
  ret (if negb dry_run && (0 <? deleted)
       then {| photos_data := []; thumbnails := [] |}
       else self,
       report).

(** Lines 1088-1207, for a connected device. [confirm] and [final_confirm]
    are the user's answers to the two [askyesno] dialogs. [selected] is
    computed from the grid and read only by the first test. *)
Definition _delete_selected (dry_run confirm final_confirm : bool) (self : App)
    : Io Dev (App * option DeleteReport) :=
  let selected := get_selected (thumbnails self) in
  if (length selected =? 0) && (length (photos_data self) =? 0) then ret (self, None)
  else if negb confirm then ret (self, None)
  else if negb dry_run && negb final_confirm then ret (self, None)
  else
    '(self', report) <- delete_thread dry_run self ;;
    ret (self', Some report).

End Pipeline.

(** ** Reading a run

    The functions below say what a run is expected to produce, from what
    the device answers. They are used in statements only. *)

Section Expected.

Context {Dev : Type} {afc : AfcService Dev}.

(** The answers of a device to one call per path, made one after the
    other from state [d] on. *)
Fixpoint outcomes {A : Type} (op : string -> Dev -> (Exception + A) * Dev)
    (ps : list string) (d : Dev) : list (Exception + A) :=
  match ps with
  | [] => []
  | p :: rest => let '(r, d') := op p d in r :: outcomes op rest d'
  end.

(** The state such calls leave the device in. *)
Fixpoint device_after_calls {A : Type} (op : string -> Dev -> (Exception + A) * Dev)
    (ps : list string) (d : Dev) : Dev :=
  match ps with
  | [] => d
  | p :: rest => let '(_, d') := op p d in device_after_calls op rest d'
  end.

(** Python's [enumerate(l, start)]. *)
Definition enumerate {A : Type} (start : nat) (l : list A) : list (nat * A) :=
  combine (seq start (length l)) l.

Definition failed {A : Type} (r : Exception + A) : bool :=
  match r with inl _ => true | inr _ => false end.

(** *** Folder phase *)

Definition folder_path (folder : string) : string := "/DCIM/" ++ folder.

(** What listing the folders answers; [d] is the device once /DCIM has
    been listed. *)
Definition folder_listings (folders : list string) (d : Dev)
    : list (string * (Exception + list string)) :=
  combine folders (outcomes afc_listdir (map folder_path folders) d).

(** One update per folder that could be listed, numbered by the position
    of the folder among all folders ([start] is the number of the first). *)
Definition folder_updates_from (total start : nat)
    (listings : list (string * (Exception + list string))) : list (nat * nat * string) :=
  flat_map (fun '(i, (folder, r)) =>
              match r with
              | inr _ => [(i + 1, total, ("Scanning " ++ folder ++ "...")%string)]
              | inl _ => []
              end)
           (enumerate start listings).

Definition folder_updates (listings : list (string * (Exception + list string)))
    : list (nat * nat * string) :=
  folder_updates_from (length listings) 0 listings.

(** The entry of [scan_errors] and the warning for a folder that could
    not be listed. *)
Definition scan_error_entry (failure : string * Exception) : string :=
  "Folder " ++ fst failure ++ ": " ++ snd failure.

Definition scan_error_warning (failure : string * Exception) : Level * string :=
  (WARNING, ("Error scanning folder " ++ fst failure ++ ": " ++ snd failure)%string).

(** One entry per folder that could not be listed. *)
Definition folder_failures (listings : list (string * (Exception + list string)))
    : list (string * Exception) :=
  flat_map (fun '(folder, r) =>
              match r with
              | inl folder_err => [(folder, folder_err)]
              | inr _ => []
              end)
           listings.

(** The media files of the folders that could be listed. *)
Definition folder_files (listings : list (string * (Exception + list string)))
    : list string :=
  flat_map (fun '(folder, r) =>
              match r with
              | inr files =>
                  map (fun f => (folder_path folder ++ "/" ++ f)%string)
                      (filter is_media files)
              | inl _ => []
              end)
           listings.

(** *** Date phase *)

(** What reading the date of each file answers: the exception of [stat],
    of the missing key or of [fromtimestamp], or the stat dict and the
    date. *)
Definition date_checks (utc_offset : Z) (photos : list string) (d : Dev)
    : list (Exception + (StatDict * datetime)) :=
  map (mtime_of utc_offset) (outcomes afc_stat photos d).

Definition is_old (cutoff_date : Z) (r : Exception + (StatDict * datetime)) : bool :=
  match r with
  | inr (_, mtime) => (datetime_date mtime <? cutoff_date)%Z
  | inl _ => false
  end.

(** The old photos among the first [n] files. *)
Definition found_so_far (cutoff_date : Z) (checks : list (Exception + (StatDict * datetime)))
    (n : nat) : nat :=
  length (filter (is_old cutoff_date) (firstn n checks)).

(** An update for file [i] (counted from 0) when [i % 10 == 0] and its
    date could be read, and no other. *)
Definition stat_updates (cutoff_date : Z) (checks : list (Exception + (StatDict * datetime)))
    : list (nat * nat * string) :=
  flat_map (fun '(i, r) =>
              match r with
              | inr _ =>
                  if i mod 10 =? 0
                  then [(i + 1, length checks,
                         ("Checking dates... Found "
                          ++ str (found_so_far cutoff_date checks (i + 1))
                          ++ " old photos")%string)]
                  else []
              | inl _ => []
              end)
           (enumerate 0 checks).

(** The same updates, followed along the files: [i] is the number of the
    first file of [checks] and [found] the old photos found before it. *)
Fixpoint stat_updates_from (cutoff_date : Z) (total i found : nat)
    (checks : list (Exception + (StatDict * datetime))) : list (nat * nat * string) :=
  match checks with
  | [] => []
  | r :: rest =>
      let found' := if is_old cutoff_date r then found + 1 else found in
      match r with
      | inr _ =>
          if i mod 10 =? 0
          then [(i + 1, total,
                 ("Checking dates... Found " ++ str found' ++ " old photos")%string)]
          else []
      | inl _ => []
      end ++ stat_updates_from cutoff_date total (S i) found' rest
  end.

(** The debug line of a file whose date could not be read. *)
Definition stat_error_lines (photos : list string)
    (checks : list (Exception + (StatDict * datetime))) : list (Level * string) :=
  flat_map (fun '(photo_path, r) =>
              match r with
              | inl stat_err =>
                  [(DEBUG, ("Could not stat " ++ photo_path ++ ": " ++ stat_err)%string)]
              | inr _ => []
              end)
           (combine photos checks).

(** The photos kept: the files whose date could be read and is before the
    cutoff, in the order of the files. *)
Definition kept_photos (cutoff_date : Z) (photos : list string)
    (checks : list (Exception + (StatDict * datetime))) : list Photo :=
  flat_map (fun '(photo_path, r) =>
              match r with
              | inr (st, mtime) =>
                  if (datetime_date mtime <? cutoff_date)%Z
                  then [make_photo photo_path st mtime]
                  else []
              | inl _ => []
              end)
           (combine photos checks).

(** The warning that closes the date phase (lines 975-976). *)
Definition date_check_warning (date_check_errors : nat) : list (Level * string) :=
  if 0 <? date_check_errors
  then [(WARNING, ("Could not check dates for " ++ str date_check_errors ++ " files")%string)]
  else [].

(** *** A whole scan

    [entries] is what listing /DCIM answered and [d] the device after that
    call. *)

Definition scan_listings (entries : list string) (d : Dev)
    : list (string * (Exception + list string)) :=
  folder_listings (real_folders entries) d.

Definition scan_candidates (entries : list string) (d : Dev) : list string :=
  folder_files (scan_listings entries d).

Definition scan_checks (utc_offset : Z) (entries : list string) (d : Dev)
    : list (Exception + (StatDict * datetime)) :=
  date_checks utc_offset (scan_candidates entries d)
    (device_after_calls afc_listdir (map folder_path (real_folders entries)) d).

Definition scan_kept (utc_offset cutoff_date : Z) (entries : list string) (d : Dev)
    : list Photo :=
  kept_photos cutoff_date (scan_candidates entries d) (scan_checks utc_offset entries d).

(** *** Thumbnail phase *)

Definition thumbnail_updates_from (total start n : nat) : list (nat * nat * string) :=
  map (fun i => (i + 1, total, "Loading thumbnails...")) (seq start n).

Definition thumbnail_updates (n : nat) : list (nat * nat * string) :=
  thumbnail_updates_from n 0 n.

(** The thumbnail a photo gets. *)
Definition thumbnail_of (photo : Photo) : Thumbnail :=
  {| thumb_path := path photo;
     thumb_filename := filename photo;
     thumb_selected := true |}.

(** *** Deletion *)

(** What removing each photo answers. *)
Definition removals (photos : list Photo) (d : Dev) : list (Photo * (Exception + unit)) :=
  combine photos (outcomes afc_rm (map path photos) d).

(** The removals that raised, with what they raised. *)
Definition removal_failures (rs : list (Photo * (Exception + unit)))
    : list (Photo * Exception) :=
  flat_map (fun '(photo, r) =>
              match r with
              | inl e => [(photo, e)]
              | inr _ => []
              end)
           rs.

(** What the logger gets: a line per removal, with the cause when it
    failed. *)
Definition removal_log (rs : list (Photo * (Exception + unit))) : list (Level * string) :=
  map (fun '(photo, r) =>
         match r with
         | inr _ => (INFO, ("Deleted: " ++ path photo)%string)
         | inl e => (ERROR, ("Failed to delete " ++ path photo ++ ": " ++ e)%string)
         end)
      rs.

Definition delete_updates_from (dry_run : bool) (total start : nat) (photos : list Photo)
    : list (nat * nat * string) :=
  map (fun '(i, photo) =>
         (i + 1, total,
          ((if dry_run then "Simulating" else "Deleting") ++ ": " ++ filename photo)%string))
      (enumerate start photos).

(** The event of an update. *)
Definition update_event (u : nat * nat * string) : Event :=
  UpdateProgress (fst (fst u)) (snd (fst u)) (snd u).

Definition delete_updates (dry_run : bool) (photos : list Photo)
    : list (nat * nat * string) :=
  delete_updates_from dry_run (length photos) 0 photos.

(** *** Phases of the progress dialog

    The three loops of a scan write messages that differ from their first
    letter on, so a message tells the phase of an update. *)

Definition current (u : nat * nat * string) : nat := fst (fst u).

Definition is_folder_update (u : nat * nat * string) : bool :=
  prefix "Scanning " (snd u).

Definition is_stat_update (u : nat * nat * string) : bool :=
  prefix "Checking dates... Found " (snd u).

Definition is_thumbnail_update (u : nat * nat * string) : bool :=
  String.eqb (snd u) "Loading thumbnails...".

(** *** The specification's wording, for the statements the code does not
    meet *)

(** "One progress update is emitted per enumerated subfolder, whether or
    not listing that subfolder succeeded." *)
Definition one_update_per_folder (folders : list string) (us : list (nat * nat * string))
    : Prop :=
  forall i folder, nth_error folders i = Some folder ->
    In (i + 1, length folders, ("Scanning " ++ folder ++ "...")%string) us.

(** "The last update always reports the final file." *)
Definition final_file_reported (total : nat) (us : list (nat * nat * string)) : Prop :=
  0 < total ->
  exists message, last (filter is_stat_update us) (0, 0, ""%string) = (total, total, message).

(** "[current] strictly increases from one notification to the next, but
    for the last one of the folder phase and the first one of the
    file-stat phase." *)
Definition increasing_but_folder_to_stat (us : list (nat * nat * string)) : Prop :=
  forall k u v, nth_error us k = Some u -> nth_error us (S k) = Some v ->
    current u < current v \/
    (is_folder_update u = true /\ is_stat_update v = true).

(** "The failing item is recorded in the failed list with its file name
    and a cause description": the causes can be read off the report. *)
Definition report_tells_causes : Prop :=
  exists cause_of : DeleteReport -> list Exception,
    forall (self : App) (d : Dev),
      cause_of (snd (value_of (delete_thread false self) d)) =
      map snd (removal_failures (removals (photos_data self) d)).

(** "The scan diagnostics are returned in full to the caller in the scan
    result": the folder failures and the number of stat failures can be
    read off what the scan leaves to its caller. *)
Definition result_tells_diagnostics (utc_offset : Z) : Prop :=
  exists diagnostics_of : App -> list string * nat,
    forall (cutoff_date : Z) (self : App) (d : Dev) (locals : ScanLocals),
      snd (value_of (scan_thread utc_offset cutoff_date self) d) = inr locals ->
      diagnostics_of (fst (value_of (scan_thread utc_offset cutoff_date self) d)) =
      (scan_errors locals, date_check_errors locals).

(** What the code does instead: [current] may also stay or drop where the
    thumbnail phase starts. *)
Definition increasing_within_phases (us : list (nat * nat * string)) : Prop :=
  forall k u v, nth_error us k = Some u -> nth_error us (S k) = Some v ->
    current u < current v \/
    (is_folder_update u = true /\ is_folder_update v = false) \/
    (is_stat_update u = true /\ is_thumbnail_update v = true).

End Expected.

(** The shape shared by the updates of the folder loop and of the date
    loop: item [j] gives no update, or one whose [current] is [j + 1]. *)
Definition at_most_one_update {A : Type} (f : nat * A -> list (nat * nat * string)) : Prop :=
  forall j x, f (j, x) = [] \/ exists u, f (j, x) = [u] /\ current u = j + 1.

Definition by_current (u v : nat * nat * string) : Prop := current u < current v.

(** ** A device for examples

    Folders and files are kept in lists; [fake_locked] holds the paths the
    device refuses to remove. Removing a file takes it out of
    [fake_files], so a second removal fails. *)

Record FakeDevice : Type := {
  fake_dirs : list (string * list string);
  fake_files : list (string * StatDict);
  fake_locked : list string
}.

Fixpoint lookup {A : Type} (k : string) (l : list (string * A)) : option A :=
  match l with
  | [] => None
  | (k', v) :: rest => if String.eqb k k' then Some v else lookup k rest
  end.

Definition fake_listdir (p : string) (d : FakeDevice) : (Exception + list string) * FakeDevice :=
  (match lookup p (fake_dirs d) with
   | Some entries => inr entries
   | None => inl "No such file or directory"
   end, d).

Definition fake_stat (p : string) (d : FakeDevice) : (Exception + StatDict) * FakeDevice :=
  (match lookup p (fake_files d) with
   | Some st => inr st
   | None => inl "No such file or directory"
   end, d).

Definition fake_get_file_contents (p : string) (d : FakeDevice)
    : (Exception + list Byte.byte) * FakeDevice :=
  (match lookup p (fake_files d) with
   | Some _ => inr []
   | None => inl "No such file or directory"
   end, d).

Definition fake_rm (p : string) (d : FakeDevice) : (Exception + unit) * FakeDevice :=
  if existsb (String.eqb p) (fake_locked d) then (inl "Permission denied", d)
  else
    match lookup p (fake_files d) with
    | None => (inl "No such file or directory", d)
    | Some _ =>
        (inr tt,
         {| fake_dirs := fake_dirs d;
            fake_files := filter (fun kv => negb (String.eqb p (fst kv))) (fake_files d);
            fake_locked := fake_locked d |})
    end.

#[export] Instance fake_afc : AfcService FakeDevice := {
  afc_listdir := fake_listdir;
  afc_stat := fake_stat;
  afc_get_file_contents := fake_get_file_contents;
  afc_rm := fake_rm
}.

(** Midnight UTC of a day, as a timestamp. *)
Definition midnight (day : Z) : Z := (day * 86400)%Z.

(** 2024-01-01, 2025-01-01 and 2025-06-01 as day numbers. *)
Definition day_2024_01_01 : Z := 19723%Z.
Definition day_2025_01_01 : Z := 20089%Z.
Definition day_2025_06_01 : Z := 20240%Z.

Definition stat_on (day : Z) (bytes : Z) : StatDict :=
  {| st_mtime := Some (midnight day); st_size := Some bytes |}.

(** The example of the specification: folder 100APPLE holds IMG_01.JPG of
    2024-01-01 and IMG_02.MOV of 2025-06-01, and folder 101APPLE cannot be
    listed. *)
Definition example_device : FakeDevice :=
  {| fake_dirs := [("/DCIM", ["."; ".."; "100APPLE"; "101APPLE"]);
                   ("/DCIM/100APPLE", ["IMG_01.JPG"; "IMG_02.MOV"; "note.txt"])];
     fake_files := [("/DCIM/100APPLE/IMG_01.JPG", stat_on day_2024_01_01 1000);
                    ("/DCIM/100APPLE/IMG_02.MOV", stat_on day_2025_06_01 2000)];
     fake_locked := [] |}.

Definition empty_app : App := {| photos_data := []; thumbnails := [] |}.

(** A scan of the example with cutoff 2025-01-01, in time zone UTC. *)
Definition example_scan : Io FakeDevice (App * (Exception + ScanLocals)) :=
  scan_thread 0 day_2025_01_01 empty_app.

(** The example again, with a third file whose stat fails; and a device
    that fails nowhere and leads to the same photos: folder 101APPLE is
    empty and the third file is newer than the cutoff. *)
Definition flaky_device : FakeDevice :=
  {| fake_dirs := [("/DCIM", ["100APPLE"; "101APPLE"]);
                   ("/DCIM/100APPLE", ["IMG_01.JPG"; "IMG_02.MOV"; "IMG_03.PNG"])];
     fake_files := [("/DCIM/100APPLE/IMG_01.JPG", stat_on day_2024_01_01 1000);
                    ("/DCIM/100APPLE/IMG_02.MOV", stat_on day_2025_06_01 2000)];
     fake_locked := [] |}.

Definition sound_device : FakeDevice :=
  {| fake_dirs := [("/DCIM", ["100APPLE"; "101APPLE"]);
                   ("/DCIM/100APPLE", ["IMG_01.JPG"; "IMG_02.MOV"; "IMG_03.PNG"]);
                   ("/DCIM/101APPLE", [])];
     fake_files := [("/DCIM/100APPLE/IMG_01.JPG", stat_on day_2024_01_01 1000);
                    ("/DCIM/100APPLE/IMG_02.MOV", stat_on day_2025_06_01 2000);
                    ("/DCIM/100APPLE/IMG_03.PNG", stat_on day_2025_06_01 3000)];
     fake_locked := [] |}.

(** Five old photos in one folder, for the deletion. *)
Definition five_names : list string :=
  ["IMG_1.JPG"; "IMG_2.JPG"; "IMG_3.JPG"; "IMG_4.JPG"; "IMG_5.JPG"].

Definition five_files : list (string * StatDict) :=
  map (fun f => (("/DCIM/100APPLE/" ++ f)%string, stat_on day_2024_01_01 1000)) five_names.

Definition five_device : FakeDevice :=
  {| fake_dirs := [("/DCIM", ["100APPLE"]); ("/DCIM/100APPLE", five_names)];
     fake_files := five_files;
     fake_locked := [] |}.

(** The application after a scan of [five_device] with cutoff 2025-01-01. *)
Definition five_app : App :=
  fst (value_of (_scan_photos 0 (Some day_2025_01_01) empty_app) five_device).

(** The device refuses to remove the third photo. *)
Definition locked_device : FakeDevice :=
  {| fake_dirs := fake_dirs five_device;
     fake_files := five_files;
     fake_locked := ["/DCIM/100APPLE/IMG_3.JPG"] |}.

(** The third photo has gone from the device since the scan. *)
Definition vanished_device : FakeDevice :=
  {| fake_dirs := fake_dirs five_device;
     fake_files := filter (fun kv => negb (String.eqb (fst kv) "/DCIM/100APPLE/IMG_3.JPG"))
                          five_files;
     fake_locked := [] |}.

(** The user clears the box of the second thumbnail. *)
Definition five_app_without_second : App :=
  {| photos_data := photos_data five_app;
     thumbnails := set_selected 1 false (thumbnails five_app) |}.

(** * The rest of the application

    The date picker, the connection to the phone, the progress dialog and
    the grid, with the Python library functions they call. *)

From Stdlib Require Import DecimalNat NArith Nnat.

(** ** Python's [int(str)], in base 10 *)

Module PyInt.

(** The ASCII characters [int] skips at both ends of its argument: tab to
    carriage return, the four separators 0x1C-0x1F and the space. *)
Definition is_space (c : ascii) : bool :=
  let n := nat_of_ascii c in
  ((9 <=? n) && (n <=? 13)) || ((28 <=? n) && (n <=? 32)).

Definition is_digit (c : ascii) : bool :=
  let n := nat_of_ascii c in (48 <=? n) && (n <=? 57).

Definition digit_value (c : ascii) : N := N.of_nat (nat_of_ascii c - 48).

Fixpoint lstrip (s : string) : string :=
  match s with
  | EmptyString => EmptyString
  | String c s' => if is_space c then lstrip s' else s
  end.

Definition strip (s : string) : string :=
  rev_string (lstrip (rev_string (lstrip s))).

(** The digits of a literal: at least one digit, and single underscores
    between digits only. [acc] is the value read so far and [after_digit]
    tells that the last character read was a digit. *)
Fixpoint digits (s : string) (acc : N) (after_digit : bool) : option N :=
  match s with
  | EmptyString => if after_digit then Some acc else None
  | String c s' =>
      if is_digit c then digits s' (10 * acc + digit_value c)%N true
      else if Ascii.eqb c "_" && after_digit then digits s' acc false
      else None
  end.

(** The characters of [s] are digits. *)
Fixpoint all_digits (s : string) : bool :=
  match s with
  | EmptyString => true
  | String c s' => is_digit c && all_digits s'
  end.

Fixpoint count_digits (s : string) : nat :=
  match s with
  | EmptyString => 0
  | String c s' => (if is_digit c then 1 else 0) + count_digits s'
  end.

(** [sys.int_info.default_max_str_digits]: a longer literal is refused. *)
Definition max_str_digits : nat := 4300.

(** [int(s)]: [None] stands for [ValueError]. *)
Definition int (s : string) : option Z :=
  let t := strip s in
  let '(negative, body) :=
    match t with
    | String "-" rest => (true, rest)
    | String "+" rest => (false, rest)
    | _ => (false, t)
    end in
  if max_str_digits <? count_digits body then None
  else
    match digits body 0%N false with
    | Some n => Some (if negative then (- Z.of_N n)%Z else Z.of_N n)
    | None => None
    end.

End PyInt.

(** ** Python's [datetime.date] *)

Module PyDate.

Record date : Type := {
  year : Z;
  month : Z;
  day : Z
}.

Definition MINYEAR : Z := 1%Z.
Definition MAXYEAR : Z := 9999%Z.

Definition is_leap (y : Z) : bool :=
  ((y mod 4 =? 0) && (negb (y mod 100 =? 0) || (y mod 400 =? 0)))%Z.

(** [_DAYS_IN_MONTH[m]], for [m] from 1 to 12. *)
Definition DAYS_IN_MONTH (m : Z) : Z :=
  match m with
  | 1 => 31 | 2 => 28 | 3 => 31 | 4 => 30 | 5 => 31 | 6 => 30
  | 7 => 31 | 8 => 31 | 9 => 30 | 10 => 31 | 11 => 30 | 12 => 31
  | _ => -1
  end%Z.

(** [_DAYS_BEFORE_MONTH[m]], for [m] from 1 to 12. *)
Definition DAYS_BEFORE_MONTH (m : Z) : Z :=
  match m with
  | 1 => 0 | 2 => 31 | 3 => 59 | 4 => 90 | 5 => 120 | 6 => 151
  | 7 => 181 | 8 => 212 | 9 => 243 | 10 => 273 | 11 => 304 | 12 => 334
  | _ => -1
  end%Z.

Definition days_in_month (y m : Z) : Z :=
  if ((m =? 2)%Z && is_leap y) then 29%Z else DAYS_IN_MONTH m.

Definition days_before_year (y : Z) : Z :=
  let y := (y - 1)%Z in
  (y * 365 + y / 4 - y / 100 + y / 400)%Z.

Definition days_before_month (y m : Z) : Z :=
  (DAYS_BEFORE_MONTH m + (if (2 <? m)%Z && is_leap y then 1 else 0))%Z.

(** [_check_date_fields]: what [date(y, m, d)] accepts; it raises
    [ValueError] otherwise. *)
Definition check_date_fields (y m d : Z) : bool :=
  ((MINYEAR <=? y) && (y <=? MAXYEAR) && (1 <=? m) && (m <=? 12)
   && (1 <=? d) && (d <=? days_in_month y m))%Z.

(** [d.toordinal()]: 1 for 0001-01-01. *)
Definition toordinal (d : date) : Z :=
  (days_before_year (year d) + days_before_month (year d) (month d) + day d)%Z.

(** [a < b] on dates: the order of the triples (year, month, day). *)
Definition lt (a b : date) : bool :=
  ((year a <? year b)
   || ((year a =? year b)
       && ((month a <? month b) || ((month a =? month b) && (day a <? day b)))))%Z.

(** [date(1970, 1, 1).toordinal()]. *)
Definition EPOCH_ORDINAL : Z := 719163%Z.

(** The day number of a date as [datetime_date] counts days: from
    1970-01-01. *)
Definition epoch_day (d : date) : Z := (toordinal d - EPOCH_ORDINAL)%Z.

End PyDate.

(** ** RetroDatePicker *)

(** The three [tk.StringVar] of the picker. *)
Record RetroDatePicker : Type := {
  month_var : string;
  day_var : string;
  year_var : string
}.

(** Lines 173-176, 203 and 217: the values the comboboxes offer. *)
Definition month_names : list string :=
  ["January"; "February"; "March"; "April"; "May"; "June";
   "July"; "August"; "September"; "October"; "November"; "December"].




(** Lines 225-229: the dict [months]. *)
Definition months : list (string * Z) :=
  [("January", 1); ("February", 2); ("March", 3); ("April", 4);
   ("May", 5); ("June", 6); ("July", 7); ("August", 8);
   ("September", 9); ("October", 10); ("November", 11); ("December", 12)]%Z.

(** How [date(...)] takes an argument as a C [int]: [OverflowError] when
    it does not fit. *)
Definition as_c_int (z : Z) : Exception + Z :=
  if (z <? - 2 ^ 63)%Z || (2 ^ 63 <=? z)%Z
  then inl "Python int too large to convert to C long"
  else if (2 ^ 31 <=? z)%Z then inl "signed integer is greater than maximum"
  else if (z <? - 2 ^ 31)%Z then inl "signed integer is less than minimum"
  else inr z.

(** Lines 224-237. [inr None] is the [None] the handler returns for
    [ValueError] and [KeyError]; [inl] is the [OverflowError] of [date],
    which the handler does not catch. *)
Definition get_date (self : RetroDatePicker) : Exception + option PyDate.date :=
  match PyInt.int (year_var self) with
  | None => inr None
  | Some y =>
      match lookup (month_var self) months with
      | None => inr None
      | Some m =>
          match PyInt.int (day_var self) with
          | None => inr None
          | Some d =>
              match as_c_int y with
              | inl e => inl e
              | inr _ =>
                  match as_c_int d with
                  | inl e => inl e
                  | inr _ =>
                      if PyDate.check_date_fields y m d
                      then inr (Some {| PyDate.year := y; PyDate.month := m;
                                        PyDate.day := d |})
                      else inr None
                  end
              end
          end
      end
  end.

(** The picker set to year [y], month number [m] and day [d] of the
    values it offers. *)
Definition picker_at (y m d : nat) : RetroDatePicker :=
  {| month_var := nth (m - 1) month_names ""; day_var := str d; year_var := str y |}.

Section ScanButton.

Context {Dev : Type} {afc : AfcService Dev}.

(** Lines 894-899 with the rest of [_scan_photos]: the cutoff is read
    from the picker. An exception that leaves [get_date] leaves
    [_scan_photos] too, before anything is done. *)
Definition scan_pressed (utc_offset : Z) (picker : RetroDatePicker) (self : App)
    : Exception + Io Dev (App * option (Exception + ScanLocals)) :=
  match get_date picker with
  | inl e => inl e
  | inr cutoff_date =>
      inr (_scan_photos utc_offset (option_map PyDate.epoch_day cutoff_date) self)
  end.

End ScanButton.

(** ** Connecting to the phone *)

(** ["\n"] *)
Definition nl : string := String (ascii_of_nat 10) EmptyString.

(** [needle in s] on strings. *)
Fixpoint contains (needle s : string) : bool :=
  prefix needle s
  || match s with
     | EmptyString => false
     | String _ s' => contains needle s'
     end.

(** The [state] of a Tk button. *)
Inductive ButtonState : Type := normal | disabled.

(** A message box of [tkinter.messagebox]: title and message. *)
Inductive MessageBox : Type :=
| showerror (title message : string)
| showinfo (title message : string)
| showwarning (title message : string).

(** What [_connect_iphone] reads and writes of the window: [self.afc]
    (the device, once a service has been started), the connection icon
    and label, the two buttons, and the status bar with its colour
    ([status_error] for [RetroColors.ERROR_RED], black otherwise). *)
Record Toolbar (Dev : Type) : Type := {
  self_afc : option Dev;
  status_icon : string;
  connection_label : string;
  connect_btn : ButtonState;
  scan_btn : ButtonState;
  status_text : string;
  status_error : bool
}.

Arguments self_afc {Dev} _.
Arguments status_icon {Dev} _.
Arguments connection_label {Dev} _.
Arguments connect_btn {Dev} _.
Arguments scan_btn {Dev} _.
Arguments status_text {Dev} _.
Arguments status_error {Dev} _.

(** Lines 481 and 546-608, 755-763: the window as [__init__] leaves it. *)
Definition new_toolbar (Dev : Type) : Toolbar Dev :=
  {| self_afc := None;
     status_icon := "🔴";
     connection_label := "No iPhone Connected";
     connect_btn := normal;
     scan_btn := disabled;
     status_text := "Ready. Connect your iPhone to begin.";
     status_error := false |}.

(** Lines 820-823: the exception raised when /DCIM cannot be listed. *)
Definition dcim_failure : Exception :=
  ("Connected to iPhone but cannot access photos." ++ nl
  ++ "Make sure the iPhone is unlocked and you've trusted this computer.")%string.

(** Lines 859-865, 867-874, 876-881 and 883-890: the four hints. *)
Definition no_device_hint : string :=
  ("No iPhone detected." ++ nl ++ nl
  ++ "Make sure:" ++ nl
  ++ "• iPhone is plugged in via USB cable" ++ nl
  ++ "• You're using a data cable (not charge-only)" ++ nl
  ++ "• The cable is fully connected")%string.

Definition not_trusted_hint : string :=
  ("iPhone not trusted." ++ nl ++ nl
  ++ "On your iPhone:" ++ nl
  ++ "1. Unlock the device" ++ nl
  ++ "2. Tap 'Trust' when prompted" ++ nl
  ++ "3. Enter your passcode if asked" ++ nl
  ++ "4. Try connecting again")%string.

Definition permission_hint : string :=
  ("Permission denied." ++ nl ++ nl
  ++ "Try running with sudo:" ++ nl
  ++ "sudo python iphone_photo_cleaner.py" ++ nl ++ nl
  ++ "Or check System Preferences > Security & Privacy")%string.

Definition other_hint (e : Exception) : string :=
  ("Error: " ++ e ++ nl ++ nl
  ++ "Make sure:" ++ nl
  ++ "• iPhone is plugged in via USB" ++ nl
  ++ "• You tapped 'Trust' on the iPhone" ++ nl
  ++ "• No other app (iTunes/Finder) is using the connection" ++ nl
  ++ "• iPhone is unlocked")%string.

(** Lines 857-890: the hint is chosen by the words of the lowered text of
    the exception, in this order. *)
Definition connection_hint (e : Exception) : string :=
  let error_msg := lower e in
  if contains "no device" error_msg || contains "usbmux" error_msg then no_device_hint
  else if contains "trust" error_msg || contains "pair" error_msg then not_trusted_hint
  else if contains "permission" error_msg || contains "access" error_msg then permission_hint
  else other_hint e.

(** Lines 832-838. *)
Definition heic_warning (HEIC_AVAILABLE : bool) : string :=
  if negb HEIC_AVAILABLE
  then (nl ++ nl ++ "⚠️ Note: HEIC support not installed." ++ nl
        ++ "HEIC photos will show as placeholders but will still be deleted." ++ nl
        ++ "Run 'pip install pillow-heif' for thumbnail previews.")%string
  else "".

Section Connect.

Context {Dev : Type} {afc : AfcService Dev}.

(** What [create_using_usbmux()] returns. *)
Variable Lockdown : Type.

(** Lines 784-789. *)
Definition _set_status (text : string) (is_error : bool) (self : Toolbar Dev) : Toolbar Dev :=
  {| self_afc := self_afc self;
     status_icon := status_icon self;
     connection_label := connection_label self;
     connect_btn := connect_btn self;
     scan_btn := scan_btn self;
     status_text := text;
     status_error := is_error |}.

(** Lines 847-892: the handler of [_connect_iphone]. [self] is the window
    when the exception is caught. The traceback that is logged too is
    left out. *)
Definition connection_failed (e : Exception) (self : Toolbar Dev)
    : Toolbar Dev * list (Level * string) * MessageBox :=
  (_set_status ("Error: " ++ e) true
     {| self_afc := self_afc self;
        status_icon := "🔴";
        connection_label := "Connection Failed";
        connect_btn := normal;
        scan_btn := scan_btn self;
        status_text := status_text self;
        status_error := status_error self |},
   [(ERROR, ("Connection failed: " ++ e)%string)],
   showerror "Connection Error" (connection_hint e)).

(** Lines 791-892. [create_using_usbmux] is what the call of that name
    gives, [start_afc] what [AfcService(lockdown)] gives: the device, or
    the exception raised. The result is the window, the lines logged and
    the message box shown. *)
Definition _connect_iphone (PYMOBILEDEVICE_AVAILABLE HEIC_AVAILABLE : bool)
    (create_using_usbmux : Exception + Lockdown)
    (start_afc : Lockdown -> Exception + Dev) (self : Toolbar Dev)
    : Toolbar Dev * list (Level * string) * MessageBox :=
  if negb PYMOBILEDEVICE_AVAILABLE then
    (self, [],
     showerror "Missing Dependency"
       ("pymobiledevice3 is not installed!" ++ nl ++ nl
        ++ "Please run:" ++ nl ++ "pip install pymobiledevice3 Pillow pillow-heif"
        ++ nl ++ nl ++ "Then restart this application."))
  else
    let self :=
      {| self_afc := self_afc self;
         status_icon := status_icon self;
         connection_label := connection_label self;
         connect_btn := disabled;
         scan_btn := scan_btn self;
         status_text := "Connecting to iPhone...";
         status_error := false |} in
    let log1 := [(INFO, "Attempting to connect to iPhone via USB..."%string)] in
    match create_using_usbmux with
    | inl e =>
        let '(self', log2, box) := connection_failed e self in
        (self', log1 ++ log2, box)
    | inr lockdown =>
        let log2 := log1 ++ [(INFO, "Lockdown connection established"%string)] in
        match start_afc lockdown with
        | inl e =>
            let '(self', log3, box) := connection_failed e self in
            (self', log2 ++ log3, box)
        | inr d =>
            let log3 := log2 ++ [(INFO, "AFC service started"%string)] in
            let '(r, d1) := afc_listdir "/DCIM" d in
            let self :=
              {| self_afc := Some d1;
                 status_icon := status_icon self;
                 connection_label := connection_label self;
                 connect_btn := connect_btn self;
                 scan_btn := scan_btn self;
                 status_text := status_text self;
                 status_error := status_error self |} in
            match r with
            | inl dcim_error =>
                let '(self', log4, box) := connection_failed dcim_failure self in
                (self',
                 log3 ++ [(WARNING, ("Could not list DCIM: " ++ dcim_error)%string)] ++ log4,
                 box)
            | inr dcim_contents =>
                (_set_status "iPhone connected successfully! Select a date and click Scan."
                   false
                   {| self_afc := self_afc self;
                      status_icon := "🟢";
                      connection_label := "iPhone Connected!";
                      connect_btn := connect_btn self;
                      scan_btn := normal;
                      status_text := status_text self;
                      status_error := status_error self |},
                 log3 ++ [(INFO, ("DCIM accessible, found " ++ str (length dcim_contents)
                                  ++ " items")%string)],
                 showinfo "Connected! 📱"
                   ("iPhone connected successfully!" ++ nl ++ nl
                    ++ "Now select a cutoff date and click 'Scan Photos' "
                    ++ "to find photos older than that date."
                    ++ heic_warning HEIC_AVAILABLE))
            end
        end
    end.

(** The windows that calls of [_connect_iphone] lead to, from the window
    of [__init__] on. *)
Inductive connect_reachable : Toolbar Dev -> Prop :=
| connect_start : connect_reachable (new_toolbar Dev)
| connect_next (available heic : bool) (usbmux : Exception + Lockdown)
    (start_afc : Lockdown -> Exception + Dev) (self : Toolbar Dev) :
    connect_reachable self ->
    connect_reachable (fst (fst (_connect_iphone available heic usbmux start_afc self))).

End Connect.

(** ** RetroProgressDialog *)

(** The widgets [update_progress] writes: the bar, the count label and
    the status label. *)
Record RetroProgressDialog : Type := {
  progress_maximum : nat;
  progress_value : nat;
  count_label : string;
  status_label : string
}.

(** Lines 432-457: the dialog as [__init__] leaves it (a [ttk.Progressbar]
    starts with maximum 100 and value 0). *)
Definition new_dialog : RetroProgressDialog :=
  {| progress_maximum := 100;
     progress_value := 0;
     count_label := "0 / 0";
     status_label := "Initializing..." |}.

(** Lines 459-465: an empty [status] leaves the status label as it is. *)
Definition dialog_update (current total : nat) (status : string)
    (self : RetroProgressDialog) : RetroProgressDialog :=
  {| progress_maximum := total;
     progress_value := current;
     count_label := (str current ++ " / " ++ str total)%string;
     status_label := if String.eqb status "" then status_label self else status |}.

(** The dialog after the updates of a trace. *)
Definition dialog_after (evs : list Event) (self : RetroProgressDialog)
    : RetroProgressDialog :=
  fold_left (fun dlg u => dialog_update (fst (fst u)) (snd (fst u)) (snd u) dlg)
            (progress_of evs) self.

(** ** The grid and the selection buttons *)

(** Lines 296-298: the row and the column of the thumbnail added when the
    grid holds [idx] of them. *)
Definition grid_cell (idx : nat) : nat * nat := (idx / 4, idx mod 4).

(** The cells of the thumbnails of a grid, in the order they were added. *)
Definition grid_cells (grid : list Thumbnail) : list (nat * nat) :=
  map grid_cell (seq 0 (length grid)).


(** Lines 287-292. *)
Definition clear (grid : list Thumbnail) : list Thumbnail := [].

(** Lines 1080-1082: the new application and the text of the label. *)
Definition _select_all (self : App) : App * string :=
  ({| photos_data := photos_data self; thumbnails := select_all (thumbnails self) |},
   ("Selected: " ++ str (length (photos_data self)))%string).

(** Lines 1084-1086. *)
Definition _deselect_all (self : App) : App * string :=
  ({| photos_data := photos_data self; thumbnails := deselect_all (thumbnails self) |},
   "Selected: 0").

Section AppStates.

Context {Dev : Type} {afc : AfcService Dev}.

(** One action of the user on the application: a scan, a deletion, one
    of the two selection buttons, or a click on the box of a thumbnail. *)
Inductive app_step : App -> App -> Prop :=
| step_scan (utc_offset : Z) (cutoff_date : option Z) (d : Dev) (self : App) :
    app_step self (fst (value_of (_scan_photos utc_offset cutoff_date self) d))
| step_delete (dry_run confirm final_confirm : bool) (d : Dev) (self : App) :
    app_step self
      (fst (value_of (_delete_selected dry_run confirm final_confirm self) d))
| step_select_all (self : App) : app_step self (fst (_select_all self))
| step_deselect_all (self : App) : app_step self (fst (_deselect_all self))
| step_click (idx : nat) (b : bool) (self : App) :
    app_step self
      {| photos_data := photos_data self;
         thumbnails := set_selected idx b (thumbnails self) |}.

(** The applications such actions lead to, from the one of [__init__]
    on. *)
Inductive app_reachable : App -> Prop :=
| app_start : app_reachable empty_app
| app_next (self self' : App) :
    app_reachable self -> app_step self self' -> app_reachable self'.

(** The grid shows the first [max_thumbnails] photos, in order. *)
Definition grid_shows_photos (self : App) : Prop :=
  map (fun t => (thumb_path t, thumb_filename t)) (thumbnails self)
  = map (fun p => (path p, filename p)) (firstn max_thumbnails (photos_data self)).

End AppStates.

(** ** Kinds of device calls *)

(** The calls that read the device: listing, stat and file contents. *)
Definition is_device_read (e : Event) : bool :=
  match e with
  | Listdir _ | Stat _ | GetFileContents _ => true
  | _ => false
  end.

(** The candidates that pass the date check, with the check that let
    them pass. *)
Definition old_candidates (cutoff_date : Z) (photos : list string)
    (checks : list (Exception + (StatDict * datetime)))
    : list (string * (Exception + (StatDict * datetime))) :=
  filter (fun pr => is_old cutoff_date (snd pr)) (combine photos checks).


(** * Properties *)

(** ** Strings *)

Section StringFacts.

Local Open Scope string_scope.

Lemma append_nil_r (s : string) : s ++ "" = s.
Proof. induction s as [|c s IH]; simpl; [reflexivity | now rewrite IH]. Qed.

Lemma append_assoc (a b c : string) : (a ++ b) ++ c = a ++ (b ++ c).
Proof. induction a as [|x a IH]; simpl; [reflexivity | now rewrite IH]. Qed.

Lemma rev_string_append (a b : string) :
  rev_string (a ++ b) = rev_string b ++ rev_string a.
Proof.
  induction a as [|x a IH]; simpl.
  - now rewrite append_nil_r.
  - now rewrite IH, append_assoc.
Qed.

Lemma rev_string_involutive (s : string) : rev_string (rev_string s) = s.
Proof.
  induction s as [|c s IH]; simpl; [reflexivity|].
  now rewrite rev_string_append, IH.
Qed.

Lemma prefix_empty (s : string) : prefix "" s = true.
Proof. destruct s; reflexivity. Qed.

Lemma prefix_iff (a s : string) :
  prefix a s = true <-> exists t, s = a ++ t.
Proof.
  revert s; induction a as [|x a IH]; intros s.
  - destruct s; simpl; split; eauto.
  - destruct s as [|y s]; simpl.
    + split; [discriminate | intros [t Ht]; discriminate].
    + destruct (ascii_dec x y) as [->|Hne].
      * rewrite IH. split; intros [t Ht]; exists t; [now rewrite Ht | now inversion Ht].
      * split; [discriminate | intros [t Ht]; exfalso; apply Hne; now inversion Ht].
Qed.

(** [endswith] is what [str.endswith] tests: [suffix] closes [s]. *)
Lemma endswith_iff (s suffix : string) :
  endswith s suffix = true <-> exists stem, s = stem ++ suffix.
Proof.
  unfold endswith. rewrite prefix_iff. split.
  - intros [t Ht]. exists (rev_string t).
    rewrite <- (rev_string_involutive s), Ht, rev_string_append.
    now rewrite rev_string_involutive.
  - intros [stem ->]. exists (rev_string stem). apply rev_string_append.
Qed.

Lemma endswith_any_iff (s : string) (suffixes : list string) :
  endswith_any s suffixes = true <->
  exists suffix stem, In suffix suffixes /\ s = stem ++ suffix.
Proof.
  unfold endswith_any. rewrite existsb_exists. split.
  - intros [x [Hin He]]. apply endswith_iff in He as [stem ->]. eauto.
  - intros [x [stem [Hin ->]]]. exists x. split; [assumption|].
    apply endswith_iff. eauto.
Qed.

Lemma lower_append (a b : string) : lower (a ++ b) = lower a ++ lower b.
Proof. induction a as [|x a IH]; simpl; [reflexivity | now rewrite IH]. Qed.

Lemma lower_ascii_idempotent (c : ascii) : lower_ascii (lower_ascii c) = lower_ascii c.
Proof. destruct c as [[] [] [] [] [] [] [] []]; reflexivity. Qed.

Lemma lower_idempotent (s : string) : lower (lower s) = lower s.
Proof.
  induction s as [|c s IH]; simpl; [reflexivity|].
  now rewrite lower_ascii_idempotent, IH.
Qed.

(** A split of [lower s] comes from a split of [s]. *)
Lemma lower_split (s a b : string) :
  lower s = a ++ b -> exists x y, s = x ++ y /\ lower x = a /\ lower y = b.
Proof.
  revert s; induction a as [|c a IH]; intros s H.
  - exists "", s. auto.
  - destruct s as [|c' s]; simpl in H; [discriminate|].
    inversion H as [[Hc Hs]]. destruct (IH _ Hs) as [x [y [-> [Hx Hy]]]].
    exists (String c' x), y. simpl. now rewrite Hx, Hy.
Qed.

Lemma lower_ascii_slash (c : ascii) :
  Ascii.eqb (lower_ascii c) "/" = Ascii.eqb c "/".
Proof. destruct c as [[] [] [] [] [] [] [] []]; reflexivity. Qed.

Lemma has_slash_lower (s : string) : has_slash (lower s) = has_slash s.
Proof.
  induction s as [|c s IH]; simpl; [reflexivity|].
  now rewrite lower_ascii_slash, IH.
Qed.

Lemma lower_basename (p : string) : lower (basename p) = basename (lower p).
Proof.
  induction p as [|c p IH]; simpl; [reflexivity|].
  rewrite has_slash_lower, lower_ascii_slash.
  destruct (has_slash p); [assumption|].
  destruct (Ascii.eqb c "/"); reflexivity.
Qed.

Lemma has_slash_append (a b : string) :
  has_slash (a ++ b) = has_slash a || has_slash b.
Proof.
  induction a as [|c a IH]; simpl; [reflexivity|].
  now rewrite IH, orb_assoc.
Qed.

(** A tail without ['/'] stays at the end of the base name. *)
Lemma basename_append (s t : string) :
  has_slash t = false -> basename (s ++ t) = basename s ++ t.
Proof.
  intros Ht. induction s as [|c s IH]; simpl.
  - destruct t as [|x t]; simpl in *; [reflexivity|].
    apply orb_false_elim in Ht as [Hx Ht]. now rewrite Ht, Hx.
  - rewrite has_slash_append, Ht, orb_false_r.
    destruct (has_slash s); [assumption|].
    destruct (Ascii.eqb c "/"); reflexivity.
Qed.

Lemma endswith_any_basename (p : string) (suffixes : list string) :
  forallb (fun x => negb (has_slash x)) suffixes = true ->
  endswith_any p suffixes = true ->
  endswith_any (basename p) suffixes = true.
Proof.
  intros Hs H. apply endswith_any_iff in H as [x [stem [Hin ->]]].
  rewrite forallb_forall in Hs. specialize (Hs _ Hin).
  apply negb_true_iff in Hs.
  apply endswith_any_iff. exists x, (basename stem).
  split; [assumption | now apply basename_append].
Qed.

End StringFacts.

(** ** Classification *)

Section Classification.

Local Open Scope string_scope.

Lemma is_media_basename (p : string) :
  is_media p = true -> is_media (basename p) = true.
Proof.
  unfold is_media. rewrite lower_basename.
  now apply endswith_any_basename.
Qed.

Lemma is_media_append (a f : string) :
  is_media f = true -> is_media (a ++ f) = true.
Proof.
  unfold is_media. rewrite lower_append. intros H.
  apply endswith_any_iff in H as [x [stem [Hin ->]]].
  apply endswith_any_iff. exists x, (lower a ++ stem).
  split; [assumption | now rewrite append_assoc].
Qed.

Lemma classify_unsupported_iff (f : string) :
  classify f = Unsupported <-> is_media f = false.
Proof.
  unfold classify, is_video, is_heic, is_media, endswith_any,
    video_extensions, heic_extensions, media_extensions. simpl.
  destruct (endswith (lower f) ".jpg"), (endswith (lower f) ".jpeg"),
    (endswith (lower f) ".png"), (endswith (lower f) ".heic"),
    (endswith (lower f) ".heif"), (endswith (lower f) ".mov"),
    (endswith (lower f) ".mp4"), (endswith (lower f) ".m4v");
    simpl; split; congruence.
Qed.

Ltac ends_with_known H :=
  unfold classify, is_video, is_heic, is_media, endswith_any, endswith;
  rewrite lower_append, H, rev_string_append; unfold video_extensions, heic_extensions, media_extensions; simpl;
  rewrite ?prefix_empty; reflexivity.

Lemma classify_image (stem ext : string) :
  In (lower ext) image_extensions -> classify (stem ++ ext) = Image.
Proof.
  intros [H|[H|[H|[]]]]; symmetry in H; ends_with_known H.
Qed.

Lemma classify_heic (stem ext : string) :
  In (lower ext) heic_extensions -> classify (stem ++ ext) = HeicImage.
Proof.
  intros [H|[H|[]]]; symmetry in H; ends_with_known H.
Qed.

Lemma classify_video (stem ext : string) :
  In (lower ext) video_extensions -> classify (stem ++ ext) = Video.
Proof.
  intros [H|[H|[H|[]]]]; symmetry in H; ends_with_known H.
Qed.

Lemma is_media_false_iff (f : string) :
  is_media f = false <->
  ~ exists stem ext, f = stem ++ ext /\ In (lower ext) media_extensions.
Proof.
  rewrite <- not_true_iff_false. unfold is_media.
  rewrite endswith_any_iff. split; intros H C; apply H.
  - destruct C as [stem [ext [-> Hin]]].
    exists (lower ext), (lower stem). split; [assumption | apply lower_append].
  - destruct C as [x [stem [Hin Heq]]].
    apply lower_split in Heq as [a [b [-> [_ Hb]]]].
    exists a, b. now rewrite Hb.
Qed.

End Classification.

(** ** Traces *)

Section Traces.

Lemma progress_of_app (a b : list Event) :
  progress_of (a ++ b) = progress_of a ++ progress_of b.
Proof. apply flat_map_app. Qed.

Lemma stat_calls_app (a b : list Event) :
  stat_calls (a ++ b) = stat_calls a ++ stat_calls b.
Proof. apply flat_map_app. Qed.

Lemma rm_calls_app (a b : list Event) :
  rm_calls (a ++ b) = rm_calls a ++ rm_calls b.
Proof. apply flat_map_app. Qed.

Lemma listdir_calls_app (a b : list Event) :
  listdir_calls (a ++ b) = listdir_calls a ++ listdir_calls b.
Proof. apply flat_map_app. Qed.

Lemma log_of_app (a b : list Event) :
  log_of (a ++ b) = log_of a ++ log_of b.
Proof. apply flat_map_app. Qed.

Lemma enumerate_cons {A : Type} (i : nat) (x : A) (l : list A) :
  enumerate i (x :: l) = (i, x) :: enumerate (S i) l.
Proof. reflexivity. Qed.

Lemma enumerate_length {A : Type} (i : nat) (l : list A) :
  length (enumerate i l) = length l.
Proof.
  unfold enumerate. rewrite length_combine, length_seq. apply Nat.min_id.
Qed.

Lemma outcomes_length {Dev A : Type} (op : string -> Dev -> (Exception + A) * Dev)
    (ps : list string) (d : Dev) :
  length (outcomes op ps d) = length ps.
Proof.
  revert d; induction ps as [|p ps IH]; intros d; simpl; [reflexivity|].
  destruct (op p d) as [r d']. simpl. now rewrite IH.
Qed.

Lemma flat_map_ext_in {A B : Type} (f g : A -> list B) (l : list A) :
  (forall a, In a l -> f a = g a) -> flat_map f l = flat_map g l.
Proof.
  induction l as [|x l IH]; intros H; simpl; [reflexivity|].
  rewrite (H x (or_introl eq_refl)), IH; [reflexivity|].
  intros a Ha. apply H. now right.
Qed.

Lemma in_enumerate {A : Type} (i j : nat) (x : A) (l : list A) :
  In (j, x) (enumerate i l) -> i <= j < i + length l.
Proof.
  unfold enumerate. intros H. apply in_combine_l in H.
  apply in_seq in H. lia.
Qed.

End Traces.

(** Runs one step of a loop body: the binds and the primitive actions are
    unfolded and the trace is split along them. *)
Ltac io_step :=
  unfold value_of, device_after, events_of, update_progress, log,
    listdir, stat, rm, get_file_contents, bind, ret, call, emit in *;
  cbv beta iota zeta in *; cbn [fst snd] in *.

(** Exposes the head of a trace and of an expected list. *)
Ltac trace_step :=
  unfold progress_of, log_of, stat_calls, rm_calls, listdir_calls, folder_updates_from,
    folder_failures, folder_files in *;
  rewrite ?enumerate_cons; cbn [flat_map map app].

(** ** The loops of the scan *)

Section ScanLoops.

Context {Dev : Type} {afc : AfcService Dev}.
Variable utc_offset : Z.

Lemma folder_listings_cons (folder : string) (rest : list string) (d : Dev) :
  folder_listings (folder :: rest) d =
  (folder, fst (afc_listdir (folder_path folder) d))
    :: folder_listings rest (snd (afc_listdir (folder_path folder) d)).
Proof.
  unfold folder_listings. simpl.
  destruct (afc_listdir (folder_path folder) d); reflexivity.
Qed.

Lemma folder_listings_length (folders : list string) (d : Dev) :
  length (folder_listings folders d) = length folders.
Proof.
  unfold folder_listings.
  rewrite length_combine, outcomes_length, length_map. apply Nat.min_id.
Qed.

Lemma folder_listings_names (folders : list string) (d : Dev) :
  map fst (folder_listings folders d) = folders.
Proof.
  revert d; induction folders as [|f rest IH]; intros d; [reflexivity|].
  rewrite folder_listings_cons. simpl. now rewrite IH.
Qed.

(** The folder loop, from what the device answers: every folder is
    listed, whatever happened to the ones before it. *)
Lemma folder_loop_run (folders : list string) :
  forall (total i : nat) (found errs : list string) (d : Dev),
    let listings := folder_listings folders d in
    exists evs,
      folder_loop total i folders found errs d =
        ((found ++ folder_files listings,
          errs ++ map scan_error_entry (folder_failures listings)),
         device_after_calls afc_listdir (map folder_path folders) d,
         evs) /\
      progress_of evs = folder_updates_from total i listings /\
      log_of evs = map scan_error_warning (folder_failures listings) /\
      stat_calls evs = [] /\
      rm_calls evs = [] /\
      listdir_calls evs = map folder_path folders.
Proof.
  induction folders as [|folder rest IH]; intros total i found errs d.
  - exists []. simpl. unfold folder_listings, folder_files, folder_failures; simpl.
    now rewrite !app_nil_r.
  - cbv zeta. rewrite folder_listings_cons.
    cbn [folder_loop map device_after_calls]. io_step.
    change ("/DCIM/" ++ folder)%string with (folder_path folder).
    destruct (afc_listdir (folder_path folder) d) as [[folder_err|files] d1];
      cbv beta iota; cbn [fst snd].
    + destruct (IH total (S i) found
                  (errs ++ [("Folder " ++ folder ++ ": " ++ folder_err)%string]) d1)
        as (evs & -> & Hp & Hl & Hs & Hr & Hd).
      eexists. split; [trace_step; now rewrite <- app_assoc|].
      repeat split; trace_step;
        first [assumption | now rewrite Hp | now rewrite Hl | now rewrite Hd].
    + destruct (IH total (S i)
                  (found ++ map (fun f => (folder_path folder ++ "/" ++ f)%string)
                                (filter is_media files)) errs d1)
        as (evs & -> & Hp & Hl & Hs & Hr & Hd).
      eexists. split; [trace_step; now rewrite <- app_assoc|].
      repeat split; trace_step;
        first [assumption | now rewrite Hp | now rewrite Hl | now rewrite Hd].
Qed.

Lemma date_checks_cons (photo_path : string) (rest : list string) (d : Dev) :
  date_checks utc_offset (photo_path :: rest) d =
  mtime_of utc_offset (fst (afc_stat photo_path d))
    :: date_checks utc_offset rest (snd (afc_stat photo_path d)).
Proof.
  unfold date_checks. simpl. destruct (afc_stat photo_path d); reflexivity.
Qed.

Lemma date_checks_length (photos : list string) (d : Dev) :
  length (date_checks utc_offset photos d) = length photos.
Proof. unfold date_checks. now rewrite length_map, outcomes_length. Qed.

(** The date loop, from what the device answers: every file is stat'ed,
    whatever happened to the ones before it. *)
Lemma stat_loop_run (cutoff_date : Z) (photos : list string) :
  forall (total i : nat) (old : list Photo) (errs : nat) (d : Dev),
    let checks := date_checks utc_offset photos d in
    exists evs,
      stat_loop utc_offset cutoff_date total i photos old errs d =
        ((old ++ kept_photos cutoff_date photos checks,
          errs + length (filter failed checks)),
         device_after_calls afc_stat photos d,
         evs) /\
      progress_of evs = stat_updates_from cutoff_date total i (length old) checks /\
      log_of evs = stat_error_lines photos checks /\
      stat_calls evs = photos /\
      rm_calls evs = [] /\
      listdir_calls evs = [].
Proof.
  induction photos as [|photo_path rest IH]; intros total i old errs d.
  - exists []. simpl. unfold kept_photos. simpl.
    now rewrite app_nil_r, Nat.add_0_r.
  - cbv zeta. rewrite date_checks_cons.
    cbn [stat_loop device_after_calls]. unfold stat_mtime. io_step.
    destruct (afc_stat photo_path d) as [r d1]; cbv beta iota; cbn [fst snd].
    destruct (mtime_of utc_offset r) as [stat_err|[st mtime]] eqn:Hm;
      cbv beta iota; cbn [fst snd].
    + destruct (IH total (S i) old (errs + 1) d1) as (evs & -> & Hp & Hl & Hs & Hr & Hd).
      eexists. split; [unfold kept_photos; cbn; f_equal; f_equal; f_equal; lia|].
      repeat split; trace_step; unfold stat_error_lines; cbn;
        first [assumption | now rewrite Hp | now rewrite Hl | now rewrite Hs].
    + assert (Hlen : forall x : Photo, length (old ++ [x]) = length old + 1)
        by (intros x; rewrite length_app; reflexivity).
      destruct (i mod 10 =? 0) eqn:Hi;
        destruct (datetime_date mtime <? cutoff_date)%Z eqn:Hold;
        cbv beta iota;
        match goal with
        | |- context [stat_loop _ _ _ _ _ ?o ?e ?dv] =>
            destruct (IH total (S i) o e dv) as (evs & -> & Hp & Hl & Hs & Hr & Hd)
        end;
        (eexists; split;
         [unfold kept_photos; cbn [combine flat_map filter failed length];
          rewrite Hold, <- ?app_assoc; reflexivity|]);
        rewrite ?Hlen in *;
        repeat split; trace_step; unfold stat_error_lines;
        cbn [stat_updates_from is_old combine flat_map app];
        rewrite ?Hold, ?Hi;
        first [assumption | now rewrite Hp | now rewrite Hl | now rewrite Hs].
Qed.

(** The updates of the date loop, file by file: an update for the files
    numbered 1, 11, 21, ... whose date could be read. *)
Lemma stat_updates_from_indexed (cutoff_date : Z)
    (checks : list (Exception + (StatDict * datetime))) :
  forall total i found,
    stat_updates_from cutoff_date total i found checks =
    flat_map (fun '(j, r) =>
                match r with
                | inr _ =>
                    if j mod 10 =? 0
                    then [(j + 1, total,
                           ("Checking dates... Found "
                            ++ str (found + found_so_far cutoff_date checks (j + 1 - i))
                            ++ " old photos")%string)]
                    else []
                | inl _ => []
                end)
             (enumerate i checks).
Proof.
  induction checks as [|r rest IH]; intros total i found; [reflexivity|].
  cbn [stat_updates_from]. rewrite enumerate_cons. cbn [flat_map].
  f_equal.
  - replace (i + 1 - i) with 1 by lia. unfold found_so_far.
    cbn [firstn filter]. destruct r as [e|[st m]]; [reflexivity|].
    destruct (i mod 10 =? 0); [|reflexivity].
    destruct (is_old cutoff_date (inr (st, m))); cbn [length];
      rewrite ?Nat.add_succ_r, ?Nat.add_1_r, ?Nat.add_0_r; reflexivity.
  - rewrite IH. apply flat_map_ext_in. intros [j x] Hin.
    apply in_enumerate in Hin.
    replace (j + 1 - i) with (S (j + 1 - S i)) by lia.
    unfold found_so_far. cbn [firstn filter].
    destruct x as [e|y]; [reflexivity|].
    destruct (j mod 10 =? 0); [|reflexivity].
    destruct (is_old cutoff_date r); cbn [length];
      rewrite ?Nat.add_succ_r, ?Nat.add_1_r, ?Nat.add_0_r; reflexivity.
Qed.

Lemma stat_updates_from_start (cutoff_date : Z)
    (checks : list (Exception + (StatDict * datetime))) :
  stat_updates_from cutoff_date (length checks) 0 0 checks =
  stat_updates cutoff_date checks.
Proof.
  rewrite stat_updates_from_indexed. unfold stat_updates.
  apply flat_map_ext. intros [j r].
  now rewrite Nat.sub_0_r.
Qed.

(** The thumbnail loop: one thumbnail and one update per photo, whatever
    reading the pictures answers; nothing is stat'ed or removed. *)
Lemma thumbnail_loop_run (photos : list Photo) :
  forall (total i : nat) (grid : list Thumbnail) (d : Dev),
    exists d' evs,
      thumbnail_loop total i photos grid d =
        (grid ++ map thumbnail_of photos, d', evs) /\
      progress_of evs = thumbnail_updates_from total i (length photos) /\
      Forall (fun line => fst line = DEBUG) (log_of evs) /\
      stat_calls evs = [] /\
      rm_calls evs = [] /\
      listdir_calls evs = [].
Proof.
  induction photos as [|photo rest IH]; intros total i grid d.
  - exists d, []. simpl. rewrite app_nil_r. repeat split; constructor.
  - cbn [thumbnail_loop]. unfold add_thumbnail. fold (thumbnail_of photo).
    io_step.
    destruct (is_video (filename photo)); cbv beta iota.
    + destruct (IH total (S i) (grid ++ [thumbnail_of photo]) d)
        as (d' & evs & -> & Hp & Hl & Hs & Hr & Hd).
      do 2 eexists. split; [cbn [map]; now rewrite <- app_assoc|].
      repeat split; trace_step; unfold thumbnail_updates_from in *;
        cbn [length seq map]; first [assumption | now rewrite Hp].
    + destruct (afc_get_file_contents (path photo) d) as [[thumb_err|data] d1];
        cbv beta iota;
        destruct (IH total (S i) (grid ++ [thumbnail_of photo]) d1)
          as (d' & evs & -> & Hp & Hl & Hs & Hr & Hd);
        (do 2 eexists; split; [cbn [map]; now rewrite <- app_assoc|]);
        repeat split; trace_step; unfold thumbnail_updates_from in *;
        cbn [length seq map];
        first [assumption | now rewrite Hp | now constructor].
Qed.

End ScanLoops.

(** ** The loop of the deletion *)

Section DeleteLoop.

Context {Dev : Type} {afc : AfcService Dev}.

Lemma removals_cons (photo : Photo) (rest : list Photo) (d : Dev) :
  removals (photo :: rest) d =
  (photo, fst (afc_rm (path photo) d)) :: removals rest (snd (afc_rm (path photo) d)).
Proof.
  unfold removals. simpl. destruct (afc_rm (path photo) d); reflexivity.
Qed.

Lemma removals_photos (photos : list Photo) (d : Dev) :
  map fst (removals photos d) = photos.
Proof.
  revert d; induction photos as [|p rest IH]; intros d; [reflexivity|].
  rewrite removals_cons. simpl. now rewrite IH.
Qed.

Lemma removals_length (photos : list Photo) (d : Dev) :
  length (removals photos d) = length photos.
Proof.
  unfold removals. rewrite length_combine, outcomes_length, length_map.
  apply Nat.min_id.
Qed.

Lemma removal_failures_length (photos : list Photo) (d : Dev) :
  length (removal_failures (removals photos d)) <= length photos.
Proof.
  rewrite <- (removals_length photos d).
  unfold removal_failures. induction (removals photos d) as [|[p [e|u]] rs IH];
    simpl; lia.
Qed.

(** A dry run: no device call at all, one update per photo, and every
    photo counted as deleted. *)
Lemma delete_loop_dry_run (photos : list Photo) :
  forall (total i deleted errors : nat) (error_files : list string) (d : Dev),
    delete_loop true total i photos deleted errors error_files d =
      ((deleted + length photos, errors, error_files), d,
       map update_event (delete_updates_from true total i photos)).
Proof.
  induction photos as [|photo rest IH]; intros total i deleted errors error_files d.
  - simpl. unfold ret. now rewrite Nat.add_0_r.
  - cbn [delete_loop negb]. io_step. rewrite IH.
    unfold delete_updates_from. rewrite enumerate_cons. cbn [map fst snd length app].
    replace (deleted + 1 + length rest) with (deleted + S (length rest)) by lia.
    reflexivity.
Qed.

(** A real run, from what the device answers: every photo is removed or
    tried, whatever happened to the ones before it. *)
Lemma delete_loop_real_run (photos : list Photo) :
  forall (total i deleted errors : nat) (error_files : list string) (d : Dev),
    let rs := removals photos d in
    exists evs,
      delete_loop false total i photos deleted errors error_files d =
        ((deleted + (length photos - length (removal_failures rs)),
          errors + length (removal_failures rs),
          error_files ++ map (fun f => filename (fst f)) (removal_failures rs)),
         device_after_calls afc_rm (map path photos) d,
         evs) /\
      rm_calls evs = map path photos /\
      progress_of evs = delete_updates_from false total i photos /\
      log_of evs = removal_log rs /\
      stat_calls evs = [].
Proof.
  induction photos as [|photo rest IH]; intros total i deleted errors error_files d.
  - exists []. simpl. unfold ret. now rewrite app_nil_r, !Nat.add_0_r.
  - cbv zeta. rewrite removals_cons.
    cbn [delete_loop negb map device_after_calls]. io_step.
    destruct (afc_rm (path photo) d) as [[e|[]] d1]; cbv beta iota; cbn [fst snd].
    + destruct (IH total (S i) deleted (errors + 1) (error_files ++ [filename photo]) d1)
        as (evs & -> & Hr & Hp & Hl & Hs).
      eexists. split.
      * unfold removal_failures. cbn [flat_map app length map fst].
        rewrite <- app_assoc. cbn [app].
        replace (errors + 1 + length (removal_failures (removals rest d1)))
          with (errors + S (length (removal_failures (removals rest d1)))) by lia.
        reflexivity.
      * repeat split; trace_step;
          unfold delete_updates_from, removal_log in *;
          rewrite ?enumerate_cons; cbn [map];
          first [assumption | now rewrite Hr | now rewrite Hp | now rewrite Hl].
    + destruct (IH total (S i) (deleted + 1) errors error_files d1)
        as (evs & -> & Hr & Hp & Hl & Hs).
      pose proof (removal_failures_length rest d1) as Hle.
      eexists. split.
      * cbn [removal_failures flat_map app length map fst].
        replace (deleted + 1 + (length rest - length (removal_failures (removals rest d1))))
          with (deleted + (S (length rest) - length (removal_failures (removals rest d1))))
          by lia.
        reflexivity.
      * repeat split; trace_step;
          unfold delete_updates_from, removal_log in *;
          rewrite ?enumerate_cons; cbn [map];
          first [assumption | now rewrite Hr | now rewrite Hp | now rewrite Hl].
Qed.

End DeleteLoop.

(** ** A whole scan *)

Section ScanThread.

Context {Dev : Type} {afc : AfcService Dev}.
Variable utc_offset : Z.

(** A scan whose listing of /DCIM raises stops there: the application is
    left as it was. *)
Lemma scan_thread_fatal (cutoff_date : Z) (self : App) (d d1 : Dev) (e : Exception) :
  afc_listdir "/DCIM" d = (inl e, d1) ->
  scan_thread utc_offset cutoff_date self d =
    ((self, inl e), d1, [Listdir "/DCIM"; Logged ERROR ("Scan failed: " ++ e)]).
Proof.
  intros H. unfold scan_thread. io_step. rewrite H. reflexivity.
Qed.

(** A scan whose listing of /DCIM succeeds, from what the device answers
    afterwards. *)
Lemma scan_thread_run (cutoff_date : Z) (self : App) (d d1 : Dev) (entries : list string) :
  afc_listdir "/DCIM" d = (inr entries, d1) ->
  let listings := scan_listings entries d1 in
  let checks := scan_checks utc_offset entries d1 in
  let kept := scan_kept utc_offset cutoff_date entries d1 in
  exists d' evs thumbnail_log,
    scan_thread utc_offset cutoff_date self d =
      (({| photos_data := kept;
           thumbnails := thumbnails self ++ map thumbnail_of (firstn max_thumbnails kept) |},
        inr {| dcim_folders := real_folders entries;
               all_photos := scan_candidates entries d1;
               old_photos := kept;
               scan_errors := map scan_error_entry (folder_failures listings);
               date_check_errors := length (filter failed checks) |}),
       d', evs) /\
    progress_of evs =
      folder_updates listings ++ stat_updates cutoff_date checks
        ++ thumbnail_updates (Nat.min (length kept) max_thumbnails) /\
    log_of evs =
      map scan_error_warning (folder_failures listings)
        ++ stat_error_lines (scan_candidates entries d1) checks
        ++ date_check_warning (length (filter failed checks))
        ++ thumbnail_log /\
    Forall (fun line => fst line = DEBUG) thumbnail_log /\
    stat_calls evs = scan_candidates entries d1 /\
    rm_calls evs = [] /\
    listdir_calls evs = "/DCIM" :: map folder_path (real_folders entries).
Proof.
  intros H. cbv zeta.
  unfold scan_kept, scan_checks, scan_candidates, scan_listings.
  unfold scan_thread. io_step. rewrite H. cbv beta iota.
  destruct (folder_loop_run (real_folders entries)
              (length (real_folders entries)) 0 [] [] d1)
    as (evs1 & -> & Hp1 & Hl1 & Hs1 & Hr1 & Hd1).
  cbv beta iota. cbn [app].
  set (listings := folder_listings (real_folders entries) d1) in *.
  set (d2 := device_after_calls afc_listdir (map folder_path (real_folders entries)) d1).
  destruct (stat_loop_run utc_offset cutoff_date (folder_files listings)
              (length (folder_files listings)) 0 [] 0 d2)
    as (evs2 & -> & Hp2 & Hl2 & Hs2 & Hr2 & Hd2).
  cbv beta iota. cbn [app plus].
  set (checks := date_checks utc_offset (folder_files listings) d2) in *.
  set (kept := kept_photos cutoff_date (folder_files listings) checks).
  set (n := length (filter failed checks)).
  destruct (thumbnail_loop_run (firstn max_thumbnails kept)
              (Nat.min (length kept) max_thumbnails) 0 (thumbnails self)
              (device_after_calls afc_stat (folder_files listings) d2))
    as (d' & evs3 & Ht & Hp3 & Hl3 & Hs3 & Hr3 & Hd3).
  assert (Hpu : folder_updates_from (length (real_folders entries)) 0 listings
                ++ stat_updates_from cutoff_date (length (folder_files listings)) 0 0 checks
                ++ thumbnail_updates_from (Nat.min (length kept) max_thumbnails) 0
                     (length (firstn max_thumbnails kept))
                = folder_updates listings ++ stat_updates cutoff_date checks
                    ++ thumbnail_updates (Nat.min (length kept) max_thumbnails)).
  { assert (Hn1 : length listings = length (real_folders entries))
      by apply folder_listings_length.
    assert (Hn2 : length checks = length (folder_files listings))
      by apply date_checks_length.
    unfold folder_updates, thumbnail_updates.
    rewrite length_firstn, (Nat.min_comm max_thumbnails).
    now rewrite <- stat_updates_from_start, Hn1, Hn2. }
  unfold date_check_warning.
  destruct (0 <? n); cbv beta iota; rewrite Ht; cbv beta iota;
    exists d'; eexists; exists (log_of evs3);
    (split; [reflexivity|]);
    rewrite ?app_nil_r;
    match goal with
    | |- context [progress_of (?e :: ?l)] => change (e :: l) with ([e] ++ l)
    end;
    rewrite !progress_of_app, !log_of_app, !stat_calls_app, !rm_calls_app,
      !listdir_calls_app;
    rewrite Hp1, Hp2, Hp3, Hl1, Hl2, Hs1, Hs2, Hs3, Hr1, Hr2, Hr3, Hd1, Hd2, Hd3;
    cbn [progress_of log_of stat_calls rm_calls listdir_calls flat_map app];
    rewrite ?app_nil_r;
    repeat split; assumption.
Qed.

End ScanThread.

(** ** A whole deletion *)

Section DeleteThread.

Context {Dev : Type} {afc : AfcService Dev}.

Lemma progress_of_update_events (us : list (nat * nat * string)) :
  progress_of (map update_event us) = us.
Proof.
  induction us as [|[[c t] m] us IH]; [reflexivity|].
  cbn. unfold progress_of in IH. now rewrite IH.
Qed.

Lemma rm_calls_update_events (us : list (nat * nat * string)) :
  rm_calls (map update_event us) = [].
Proof. induction us as [|u us IH]; [reflexivity | exact IH]. Qed.

Lemma delete_thread_dry_run (self : App) (d : Dev) :
  delete_thread true self d =
    ((self,
      {| deleted := length (photos_data self); errors := 0; error_files := [];
         mode := "[DRY RUN] " |}),
     d,
     map update_event (delete_updates true (photos_data self))).
Proof.
  unfold delete_thread. io_step. rewrite delete_loop_dry_run.
  cbn [negb andb]. now rewrite app_nil_r.
Qed.

Lemma delete_thread_real_run (self : App) (d : Dev) :
  let rs := removals (photos_data self) d in
  let removed := length (photos_data self) - length (removal_failures rs) in
  exists evs,
    delete_thread false self d =
      ((if 0 <? removed then {| photos_data := []; thumbnails := [] |} else self,
        {| deleted := removed;
           errors := length (removal_failures rs);
           error_files := map (fun f => filename (fst f)) (removal_failures rs);
           mode := "" |}),
       device_after_calls afc_rm (map path (photos_data self)) d,
       evs) /\
    rm_calls evs = map path (photos_data self) /\
    progress_of evs = delete_updates false (photos_data self) /\
    log_of evs = removal_log rs.
Proof.
  cbv zeta. unfold delete_thread. io_step.
  destruct (delete_loop_real_run (photos_data self)
              (length (photos_data self)) 0 0 0 [] d)
    as (evs & -> & Hr & Hp & Hl & Hs).
  cbn [negb andb plus app]. exists evs. rewrite app_nil_r.
  repeat split; assumption.
Qed.

(** [get_selected] keeps the thumbnails whose box is checked, in the
    order of the grid. *)
Lemma get_selected_spec (grid : list Thumbnail) (t : Thumbnail) :
  In t (get_selected grid) <-> In t grid /\ thumb_selected t = true.
Proof. apply filter_In. Qed.

(** The deletion reads [self.photos_data] only: the boxes of the grid
    change nothing to what it does to the device. *)
Lemma delete_thread_ignores_grid (dry_run : bool) (photos : list Photo)
    (grid grid' : list Thumbnail) (d : Dev) :
  let run g := delete_thread dry_run {| photos_data := photos; thumbnails := g |} in
  events_of (run grid) d = events_of (run grid') d /\
  device_after (run grid) d = device_after (run grid') d /\
  snd (value_of (run grid) d) = snd (value_of (run grid') d).
Proof.
  cbv zeta. unfold delete_thread. io_step. cbn [photos_data].
  destruct (delete_loop dry_run (length photos) 0 photos 0 0 [] d)
    as [[[[n m] fs] d'] evs].
  repeat split; reflexivity.
Qed.

(** C1. For every list of photos, a deletion with [dry_run] set never
    calls [self.afc.rm]: its trace holds the progress updates only, so no
    device call of any kind is made and the device is left as it was; the
    report is marked as a dry run, counts every photo as deleted and has
    no error and no failed file. The same holds when the deletion is
    started through [_delete_selected], whatever the user answers. *)
Theorem C1_dry_run_never_calls_rm (self : App) (d : Dev) :
  let run := delete_thread true self in
  let report := snd (value_of run d) in
  rm_calls (events_of run d) = [] /\
  events_of run d = map update_event (delete_updates true (photos_data self)) /\
  device_after run d = d /\
  mode report = "[DRY RUN] " /\
  deleted report = length (photos_data self) /\
  errors report = 0 /\
  error_files report = [] /\
  (forall confirm final_confirm : bool,
     rm_calls (events_of (_delete_selected true confirm final_confirm self) d) = [] /\
     device_after (_delete_selected true confirm final_confirm self) d = d).
Proof.
  cbv zeta. unfold value_of, events_of, device_after.
  rewrite delete_thread_dry_run. cbn [fst snd mode deleted errors error_files].
  rewrite rm_calls_update_events. repeat split.
  - unfold _delete_selected, bind, ret.
    destruct (_ && _); [reflexivity|].
    destruct confirm; [|reflexivity]. cbn [negb andb].
    rewrite delete_thread_dry_run. cbn [snd].
    now rewrite app_nil_r, rm_calls_update_events.
  - unfold _delete_selected, bind, ret.
    destruct (_ && _); [reflexivity|].
    destruct confirm; [|reflexivity]. cbn [negb andb].
    now rewrite delete_thread_dry_run.
Qed.

(** C4, as the code has it. For every list of photos, in a real run a
    removal that raises does not stop the loop: [self.afc.rm] is called
    once for every photo, in order, and a progress update follows each.
    The file name of each photo whose removal raised, and nothing else,
    goes to [error_files], in order; [errors] counts them and [deleted]
    the others. What was raised goes to the logger only, in the ERROR
    line of the photo. *)
Theorem C4_failed_removal_does_not_stop_the_batch (self : App) (d : Dev) :
  let run := delete_thread false self in
  let report := snd (value_of run d) in
  let rs := removals (photos_data self) d in
  rm_calls (events_of run d) = map path (photos_data self) /\
  progress_of (events_of run d) = delete_updates false (photos_data self) /\
  error_files report = map (fun f => filename (fst f)) (removal_failures rs) /\
  errors report = length (removal_failures rs) /\
  deleted report = length (photos_data self) - length (removal_failures rs) /\
  log_of (events_of run d) = removal_log rs.
Proof.
  cbv zeta. unfold value_of, events_of.
  destruct (delete_thread_real_run self d) as (evs & -> & Hr & Hp & Hl).
  cbn [fst snd error_files errors deleted]. repeat split; assumption.
Qed.

Lemma delete_updates_length (dry_run : bool) (photos : list Photo) :
  length (delete_updates dry_run photos) = length photos.
Proof.
  unfold delete_updates, delete_updates_from.
  now rewrite length_map, enumerate_length.
Qed.

Lemma delete_updates_currents (dry_run : bool) (photos : list Photo) :
  forall total i,
    map current (delete_updates_from dry_run total i photos) = seq (S i) (length photos).
Proof.
  induction photos as [|p rest IH]; intros total i; [reflexivity|].
  unfold delete_updates_from in *. rewrite enumerate_cons. cbn [map length seq].
  rewrite IH. unfold current. cbn [fst]. now rewrite Nat.add_1_r.
Qed.

Lemma delete_thread_progress (dry_run : bool) (self : App) (d : Dev) :
  progress_of (events_of (delete_thread dry_run self) d)
  = delete_updates dry_run (photos_data self).
Proof.
  unfold events_of. destruct dry_run.
  - rewrite delete_thread_dry_run. cbn [snd]. apply progress_of_update_events.
  - destruct (delete_thread_real_run self d) as (evs & -> & Hr & Hp & Hl).
    exact Hp.
Qed.

(** The updates of a deletion are numbered from 1 on. *)
Lemma delete_thread_currents (dry_run : bool) (self : App) (d : Dev) :
  currents_of (events_of (delete_thread dry_run self) d)
  = seq 1 (length (photos_data self)).
Proof.
  unfold currents_of. rewrite delete_thread_progress.
  apply delete_updates_currents.
Qed.

(** C10. For every list of photos and both values of [dry_run], the two
    tallies of the report share out the photos: [deleted] plus the length
    of [error_files] is the number of photos, [errors] is the length of
    [error_files], and the loop went through every photo (one progress
    update each, numbered 1 to the number of photos). *)
Theorem C10_tallies_partition_the_photos (dry_run : bool) (self : App) (d : Dev) :
  let run := delete_thread dry_run self in
  let report := snd (value_of run d) in
  deleted report + length (error_files report) = length (photos_data self) /\
  errors report = length (error_files report) /\
  length (progress_of (events_of run d)) = length (photos_data self) /\
  currents_of (events_of run d) = seq 1 (length (photos_data self)).
Proof.
  cbv zeta. rewrite delete_thread_progress, delete_updates_length, delete_thread_currents.
  unfold value_of. destruct dry_run.
  - rewrite delete_thread_dry_run.
    cbn [fst snd deleted errors error_files length]. repeat split. lia.
  - destruct (delete_thread_real_run self d) as (evs & -> & Hr & Hp & Hl).
    cbn [fst snd deleted errors error_files]. rewrite length_map.
    pose proof (removal_failures_length (photos_data self) d).
    repeat split. lia.
Qed.

End DeleteThread.

(** ** The progress updates of a scan, phase by phase *)

Section Phases.

Lemma filter_all {A : Type} (f : A -> bool) (l : list A) :
  Forall (fun x => f x = true) l -> filter f l = l.
Proof.
  induction 1 as [|x l Hx _ IH]; simpl; [reflexivity|]. now rewrite Hx, IH.
Qed.

Lemma filter_none {A : Type} (f : A -> bool) (l : list A) :
  Forall (fun x => f x = false) l -> filter f l = [].
Proof.
  induction 1 as [|x l Hx _ IH]; simpl; [reflexivity|]. now rewrite Hx.
Qed.

Lemma flat_map_enumerate_Forall {A : Type} (P : nat * nat * string -> Prop)
    (f : nat * A -> list (nat * nat * string)) (l : list A) (i : nat) :
  (forall j x, Forall P (f (j, x))) -> Forall P (flat_map f (enumerate i l)).
Proof.
  intros H. apply Forall_flat_map. apply Forall_forall. intros [j x] _. apply H.
Qed.

Lemma updates_sorted {A : Type} (f : nat * A -> list (nat * nat * string)) :
  at_most_one_update f ->
  forall (l : list A) (i : nat),
    Sorted by_current (flat_map f (enumerate i l)) /\
    Forall (fun u => i < current u) (flat_map f (enumerate i l)).
Proof.
  intros Hf. induction l as [|x l IH]; intros i.
  - split; constructor.
  - rewrite enumerate_cons. cbn [flat_map].
    destruct (IH (S i)) as [Hs Hb].
    assert (Hb' : Forall (fun u => i < current u) (flat_map f (enumerate (S i) l))).
    { eapply Forall_impl; [|exact Hb]. cbv beta. intros; lia. }
    destruct (Hf i x) as [->|[u [-> Hu]]]; cbn [app].
    + split; assumption.
    + split.
      * constructor; [assumption|].
        destruct (flat_map f (enumerate (S i) l)) as [|v rest]; constructor.
        inversion Hb; subst. unfold by_current. lia.
      * constructor; [lia | assumption].
Qed.

Lemma sorted_consecutive {A : Type} (R : A -> A -> Prop) (l : list A) :
  Sorted R l ->
  forall k u v, nth_error l k = Some u -> nth_error l (S k) = Some v -> R u v.
Proof.
  induction 1 as [|x l Hs IH Hd]; intros k u v Hu Hv.
  - destruct k; discriminate.
  - destruct k as [|k].
    + cbn in Hu, Hv. inversion Hu; subst.
      destruct l as [|y l]; [discriminate|]. cbn in Hv. inversion Hv; subst.
      now inversion Hd.
    + cbn in Hu. apply (IH k u v Hu). exact Hv.
Qed.

(** Two neighbours of [a ++ b] are neighbours in [a], or neighbours in
    [b], or the last of [a] and the first of [b]. *)
Lemma consecutive_app {A : Type} (a b : list A) (k : nat) (u v : A) :
  nth_error (a ++ b) k = Some u -> nth_error (a ++ b) (S k) = Some v ->
  (nth_error a k = Some u /\ nth_error a (S k) = Some v) \/
  (In u a /\ In v b) \/
  (exists k', nth_error b k' = Some u /\ nth_error b (S k') = Some v).
Proof.
  intros Hu Hv.
  destruct (Nat.lt_ge_cases (S k) (length a)) as [H|H].
  - left. rewrite nth_error_app1 in Hu, Hv by lia. now split.
  - destruct (Nat.eq_dec (S k) (length a)) as [E|E].
    + right; left. rewrite nth_error_app1 in Hu by lia.
      rewrite nth_error_app2 in Hv by lia.
      split; eapply nth_error_In; eassumption.
    + right; right. exists (k - length a).
      rewrite nth_error_app2 in Hu, Hv by lia.
      replace (S k - length a) with (S (k - length a)) in Hv by lia.
      now split.
Qed.

Ltac phase_of_message :=
  unfold is_folder_update, is_stat_update, is_thumbnail_update;
  cbn [snd]; simpl; rewrite ?prefix_empty; reflexivity.

Lemma folder_update_shape (total : nat) :
  at_most_one_update
    (fun '(i, (folder, r)) =>
       match r : Exception + list string with
       | inr _ => [(i + 1, total, ("Scanning " ++ folder ++ "...")%string)]
       | inl _ => []
       end).
Proof.
  intros j [folder [e|files]]; [now left | right]. eexists. split; reflexivity.
Qed.

Lemma folder_updates_phase (total i : nat)
    (listings : list (string * (Exception + list string))) :
  Forall (fun u => is_folder_update u = true /\ is_stat_update u = false
                   /\ is_thumbnail_update u = false)
         (folder_updates_from total i listings).
Proof.
  unfold folder_updates_from. apply flat_map_enumerate_Forall.
  intros j [folder [e|files]]; constructor; [|constructor].
  repeat split; phase_of_message.
Qed.

Lemma stat_update_shape (cutoff_date : Z) (total : nat)
    (checks : list (Exception + (StatDict * datetime))) :
  at_most_one_update
    (fun '(i, r) =>
       match r : Exception + (StatDict * datetime) with
       | inr _ =>
           if i mod 10 =? 0
           then [(i + 1, total,
                  ("Checking dates... Found "
                   ++ str (found_so_far cutoff_date checks (i + 1))
                   ++ " old photos")%string)]
           else []
       | inl _ => []
       end).
Proof.
  intros j [e|y]; [now left|].
  destruct (j mod 10 =? 0); [right | now left]. eexists. split; reflexivity.
Qed.

Lemma stat_updates_phase (cutoff_date : Z)
    (checks : list (Exception + (StatDict * datetime))) :
  Forall (fun u => is_folder_update u = false /\ is_stat_update u = true
                   /\ is_thumbnail_update u = false)
         (stat_updates cutoff_date checks).
Proof.
  unfold stat_updates. apply flat_map_enumerate_Forall.
  intros j [e|y]; [constructor|].
  destruct (j mod 10 =? 0); constructor; [|constructor].
  repeat split; phase_of_message.
Qed.

Lemma thumbnail_updates_phase (total i n : nat) :
  Forall (fun u => is_folder_update u = false /\ is_stat_update u = false
                   /\ is_thumbnail_update u = true)
         (thumbnail_updates_from total i n).
Proof.
  unfold thumbnail_updates_from. apply Forall_map, Forall_forall.
  intros j _. repeat split; phase_of_message.
Qed.

Lemma thumbnail_updates_sorted (total n : nat) :
  forall i, Sorted by_current (thumbnail_updates_from total i n).
Proof.
  unfold thumbnail_updates_from. induction n as [|n IH]; intros i; [constructor|].
  cbn [seq map]. constructor; [apply IH|].
  destruct n; constructor. unfold by_current, current. cbn. lia.
Qed.

(** The three phases one after the other: [current] grows inside each,
    and starts again at the head of the next. *)
Lemma phases_increasing (listings : list (string * (Exception + list string)))
    (cutoff_date : Z) (checks : list (Exception + (StatDict * datetime))) (n : nat) :
  increasing_within_phases
    (folder_updates listings ++ stat_updates cutoff_date checks ++ thumbnail_updates n).
Proof.
  intros k u v Hu Hv.
  pose proof (folder_updates_phase (length listings) 0 listings) as F1.
  pose proof (stat_updates_phase cutoff_date checks) as F2.
  pose proof (thumbnail_updates_phase n 0 n) as F3.
  fold (folder_updates listings) in F1. fold (thumbnail_updates n) in F3.
  rewrite Forall_forall in F1, F2, F3.
  destruct (consecutive_app _ _ _ _ _ Hu Hv) as [[H1 H2]|[[H1 H2]|[k' [H1 H2]]]].
  - left. refine (sorted_consecutive by_current _ _ k u v H1 H2).
    apply (updates_sorted _ (folder_update_shape (length listings)) listings 0).
  - right; left. split; [apply (F1 _ H1)|].
    apply in_app_or in H2 as [H2|H2]; [apply (F2 _ H2) | apply (F3 _ H2)].
  - destruct (consecutive_app _ _ _ _ _ H1 H2) as [[G1 G2]|[[G1 G2]|[k2 [G1 G2]]]].
    + left. refine (sorted_consecutive by_current _ _ k' u v G1 G2).
      apply (updates_sorted _ (stat_update_shape cutoff_date (length checks) checks)
               checks 0).
    + right; right. split; [apply (F2 _ G1) | apply (F3 _ G2)].
    + left. refine (sorted_consecutive by_current _ _ k2 u v G1 G2).
      apply thumbnail_updates_sorted.
Qed.

Lemma phases_filter (listings : list (string * (Exception + list string)))
    (cutoff_date : Z) (checks : list (Exception + (StatDict * datetime))) (n : nat) :
  let us := folder_updates listings ++ stat_updates cutoff_date checks
              ++ thumbnail_updates n in
  filter is_folder_update us = folder_updates listings /\
  filter is_stat_update us = stat_updates cutoff_date checks /\
  filter is_thumbnail_update us = thumbnail_updates n.
Proof.
  cbv zeta.
  pose proof (folder_updates_phase (length listings) 0 listings) as F1.
  pose proof (stat_updates_phase cutoff_date checks) as F2.
  pose proof (thumbnail_updates_phase n 0 n) as F3.
  fold (folder_updates listings) in F1. fold (thumbnail_updates n) in F3.
  rewrite !filter_app.
  repeat split.
  - rewrite (filter_all is_folder_update (folder_updates listings)),
      (filter_none is_folder_update (stat_updates cutoff_date checks)),
      (filter_none is_folder_update (thumbnail_updates n));
      [now rewrite !app_nil_r | | | ];
      (eapply Forall_impl; [|eassumption]); cbv beta; intuition.
  - rewrite (filter_none is_stat_update (folder_updates listings)),
      (filter_all is_stat_update (stat_updates cutoff_date checks)),
      (filter_none is_stat_update (thumbnail_updates n));
      [now rewrite !app_nil_r | | | ];
      (eapply Forall_impl; [|eassumption]); cbv beta; intuition.
  - rewrite (filter_none is_thumbnail_update (folder_updates listings)),
      (filter_none is_thumbnail_update (stat_updates cutoff_date checks)),
      (filter_all is_thumbnail_update (thumbnail_updates n));
      [reflexivity | | | ];
      (eapply Forall_impl; [|eassumption]); cbv beta; intuition.
Qed.

End Phases.

(** ** What a scan keeps *)

Section ScanClaims.

Context {Dev : Type} {afc : AfcService Dev}.
Variable utc_offset : Z.

Lemma kept_photos_spec (cutoff_date : Z) (photos : list string)
    (checks : list (Exception + (StatDict * datetime))) :
  Forall (fun photo =>
            (datetime_date (date photo) < cutoff_date)%Z /\
            In (path photo) photos /\
            filename photo = basename (path photo))
         (kept_photos cutoff_date photos checks).
Proof.
  unfold kept_photos. revert checks.
  induction photos as [|p rest IH]; intros [|r checks]; try constructor.
  cbn [combine flat_map].
  apply Forall_app. split.
  - destruct r as [e|[st m]]; [constructor|].
    destruct (datetime_date m <? cutoff_date)%Z eqn:E; constructor; [|constructor].
    cbn. apply Z.ltb_lt in E. auto.
  - eapply Forall_impl; [|apply IH]. cbv beta. intros photo (H1 & H2 & H3).
    repeat split; [assumption | now right | assumption].
Qed.

Lemma kept_photos_length (cutoff_date : Z) (photos : list string)
    (checks : list (Exception + (StatDict * datetime))) :
  length (kept_photos cutoff_date photos checks) + length (filter failed checks)
  <= length checks.
Proof.
  unfold kept_photos. revert checks.
  induction photos as [|p rest IH]; intros checks.
  - cbn [combine flat_map length plus]. apply filter_length_le.
  - destruct checks as [|r checks]; [cbn; lia|].
    cbn [combine flat_map]. rewrite length_app. specialize (IH checks).
    destruct r as [e|[st m]]; cbn [filter failed length]; [lia|].
    destruct (datetime_date m <? cutoff_date)%Z; cbn [length]; lia.
Qed.

Lemma folder_files_media (listings : list (string * (Exception + list string))) :
  Forall (fun p => is_media (basename p) = true) (folder_files listings).
Proof.
  unfold folder_files. apply Forall_flat_map, Forall_forall.
  intros [folder [e|files]] _; [constructor|].
  apply Forall_map, Forall_forall. intros f Hf.
  apply filter_In in Hf as [_ Hf].
  apply is_media_basename.
  rewrite <- append_assoc. now apply is_media_append.
Qed.

Lemma warnings_app (a b : list (Level * string)) :
  warnings (a ++ b) = warnings a ++ warnings b.
Proof. apply filter_app. Qed.

Lemma warnings_debug (lines : list (Level * string)) :
  Forall (fun line => fst line = DEBUG) lines -> warnings lines = [].
Proof.
  intros H. apply filter_none. eapply Forall_impl; [|exact H].
  intros line E. unfold is_warning. now rewrite E.
Qed.

Lemma stat_error_lines_debug (photos : list string)
    (checks : list (Exception + (StatDict * datetime))) :
  Forall (fun line => fst line = DEBUG) (stat_error_lines photos checks).
Proof.
  unfold stat_error_lines. apply Forall_flat_map, Forall_forall.
  intros [p [e|y]] _; repeat constructor.
Qed.

Lemma warnings_scan_errors (failures : list (string * Exception)) :
  warnings (map scan_error_warning failures) = map scan_error_warning failures.
Proof. apply filter_all, Forall_map, Forall_forall. reflexivity. Qed.

Lemma warnings_date_check (n : nat) :
  warnings (date_check_warning n) = date_check_warning n.
Proof. unfold date_check_warning. now destruct (0 <? n). Qed.

(** C2. For every cutoff date and every device, the photos a scan leaves
    in [self.photos_data] all have a modification date strictly before
    the cutoff, the date being the day of the [datetime] without its time
    of day; none has a date on or after the cutoff. When the scan ends
    normally these photos are its [old_photos]; when /DCIM cannot be
    listed there is none. *)
Theorem C2_scan_keeps_only_photos_before_cutoff (cutoff_date : Z) (self : App) (d : Dev) :
  let run := _scan_photos utc_offset (Some cutoff_date) self in
  let found := photos_data (fst (value_of run d)) in
  Forall (fun photo => (dt_day (date photo) < cutoff_date)%Z) found /\
  Forall (fun photo => ~ (cutoff_date <= datetime_date (date photo))%Z) found /\
  match snd (value_of run d) with
  | Some (inr locals) => found = old_photos locals
  | Some (inl _) => found = []
  | None => False
  end.
Proof.
  cbv zeta. unfold _scan_photos, value_of, bind, ret.
  destruct (afc_listdir "/DCIM" d) as [[e|entries] d1] eqn:Hroot.
  - rewrite (scan_thread_fatal utc_offset cutoff_date _ d d1 e Hroot).
    cbn [fst snd photos_data]. repeat split; constructor.
  - destruct (scan_thread_run utc_offset cutoff_date
                {| photos_data := []; thumbnails := [] |} d d1 entries Hroot)
      as (d' & evs & tl & -> & _).
    cbn [fst snd photos_data old_photos].
    pose proof (kept_photos_spec cutoff_date (scan_candidates entries d1)
                  (scan_checks utc_offset entries d1)) as K.
    fold (scan_kept utc_offset cutoff_date entries d1) in K.
    repeat split.
    + eapply Forall_impl; [|exact K]. cbv beta. intros photo H. apply H.
    + eapply Forall_impl; [|exact K]. cbv beta. intros photo H.
      unfold datetime_date in *. lia.
Qed.

(** C5, as the code has it. When /DCIM can be listed, the scan gathers
    its diagnostics in full: [scan_errors] has one entry, folder name and
    error text, for every folder whose listing raised, in order, and
    [date_check_errors] is the number of files whose date could not be
    read. They are written to the log, neither shortened nor summed up:
    one warning per failed folder, then one warning with the count when
    it is positive. What the scan hands to its caller is the list of old
    photos and their thumbnails. *)
Theorem C5_scan_diagnostics_are_gathered_and_logged (cutoff_date : Z) (self : App)
    (d d1 : Dev) (entries : list string) :
  afc_listdir "/DCIM" d = (inr entries, d1) ->
  let run := scan_thread utc_offset cutoff_date self in
  let listings := scan_listings entries d1 in
  let checks := scan_checks utc_offset entries d1 in
  exists locals,
    snd (value_of run d) = inr locals /\
    scan_errors locals = map scan_error_entry (folder_failures listings) /\
    date_check_errors locals = length (filter failed checks) /\
    warnings (log_of (events_of run d)) =
      map scan_error_warning (folder_failures listings)
        ++ date_check_warning (date_check_errors locals) /\
    fst (value_of run d) =
      {| photos_data := old_photos locals;
         thumbnails := thumbnails self
                         ++ map thumbnail_of (firstn max_thumbnails (old_photos locals)) |}.
Proof.
  intros Hroot. cbv zeta. unfold value_of, events_of.
  destruct (scan_thread_run utc_offset cutoff_date self d d1 entries Hroot)
    as (d' & evs & tl & -> & Hp & Hl & Htl & Hs & Hr & Hd).
  cbn [fst snd]. eexists. split; [reflexivity|].
  cbn [scan_errors date_check_errors old_photos]. repeat split.
  rewrite Hl, !warnings_app, warnings_scan_errors, warnings_date_check.
  rewrite (warnings_debug _ (stat_error_lines_debug _ _)), (warnings_debug _ Htl).
  now rewrite app_nil_r.
Qed.

(** C6. Classification is a function of the file name that depends on
    the name only through its lower-case form: a name that ends with
    .jpg, .jpeg or .png in any mix of cases is an image, with .heic or
    .heif a HEIC image, with .mov, .mp4 or .m4v a video, and a name is
    unsupported exactly when it ends with none of the eight. In a scan,
    the candidates ([all_photos]) are supported files only, the files
    stat'ed are exactly the candidates, every photo of the result is a
    supported file, and the photos kept and the date failures together
    do not exceed the candidates: an unsupported file is never stat'ed
    and counts nowhere. *)
Theorem C6_classification_by_extension :
  (forall f g : string, lower f = lower g -> classify f = classify g) /\
  (forall stem ext : string,
     In (lower ext) image_extensions -> classify (stem ++ ext) = Image) /\
  (forall stem ext : string,
     In (lower ext) heic_extensions -> classify (stem ++ ext) = HeicImage) /\
  (forall stem ext : string,
     In (lower ext) video_extensions -> classify (stem ++ ext) = Video) /\
  (forall f : string,
     classify f = Unsupported <->
     ~ exists stem ext : string, f = (stem ++ ext)%string /\ In (lower ext) media_extensions) /\
  (forall (cutoff_date : Z) (self : App) (d : Dev) (locals : ScanLocals),
     snd (value_of (scan_thread utc_offset cutoff_date self) d) = inr locals ->
     Forall (fun p => classify (basename p) <> Unsupported) (all_photos locals) /\
     stat_calls (events_of (scan_thread utc_offset cutoff_date self) d) = all_photos locals /\
     Forall (fun photo => classify (filename photo) <> Unsupported) (old_photos locals) /\
     length (old_photos locals) + date_check_errors locals <= length (all_photos locals)).
Proof.
  split; [|split; [|split; [|split; [|split]]]].
  - intros f g H. unfold classify, is_video, is_heic, is_media. now rewrite H.
  - apply classify_image.
  - apply classify_heic.
  - apply classify_video.
  - intros f. rewrite classify_unsupported_iff. apply is_media_false_iff.
  - intros cutoff_date self d locals. unfold value_of, events_of.
    destruct (afc_listdir "/DCIM" d) as [[e|entries] d1] eqn:Hroot.
    + rewrite (scan_thread_fatal utc_offset cutoff_date _ d d1 e Hroot). discriminate.
    + destruct (scan_thread_run utc_offset cutoff_date self d d1 entries Hroot)
        as (d' & evs & tl & -> & Hp & Hl & Htl & Hs & Hr & Hd).
      cbn [fst snd]. intros H. inversion H; subst locals; clear H.
      cbn [all_photos old_photos date_check_errors].
      pose proof (folder_files_media (scan_listings entries d1)) as M.
      fold (scan_candidates entries d1) in M.
      assert (S : forall p, is_media (basename p) = true ->
                            classify (basename p) <> Unsupported).
      { intros p Hp' C. apply classify_unsupported_iff in C. congruence. }
      repeat split.
      * eapply Forall_impl; [|exact M]. exact S.
      * exact Hs.
      * pose proof (kept_photos_spec cutoff_date (scan_candidates entries d1)
                      (scan_checks utc_offset entries d1)) as K.
        fold (scan_kept utc_offset cutoff_date entries d1) in K.
        rewrite Forall_forall in K, M. apply Forall_forall. intros photo Hin.
        destruct (K _ Hin) as (_ & Hpath & ->). apply S, M, Hpath.
      * pose proof (kept_photos_length cutoff_date (scan_candidates entries d1)
                      (scan_checks utc_offset entries d1)) as L.
        unfold scan_checks in L at 3. rewrite date_checks_length in L. exact L.
Qed.

(** C7, as the code has it. When /DCIM can be listed, every folder but
    "." and ".." is listed, whatever happened to the folders before it: a
    listing that raises adds an entry to [scan_errors] and the scan goes
    on to its end. A progress update (position of the folder, number of
    folders, name of the folder) is emitted after each folder whose
    listing succeeded, and none for a folder whose listing raised. *)
Theorem C7_progress_update_after_each_listed_folder (cutoff_date : Z) (self : App)
    (d d1 : Dev) (entries : list string) :
  afc_listdir "/DCIM" d = (inr entries, d1) ->
  let run := scan_thread utc_offset cutoff_date self in
  let listings := scan_listings entries d1 in
  map fst listings = real_folders entries /\
  listdir_calls (events_of run d) = "/DCIM" :: map folder_path (real_folders entries) /\
  (exists locals,
     snd (value_of run d) = inr locals /\
     dcim_folders locals = real_folders entries /\
     scan_errors locals = map scan_error_entry (folder_failures listings) /\
     all_photos locals = folder_files listings) /\
  filter is_folder_update (progress_of (events_of run d)) = folder_updates listings.
Proof.
  intros Hroot. cbv zeta. unfold value_of, events_of.
  destruct (scan_thread_run utc_offset cutoff_date self d d1 entries Hroot)
    as (d' & evs & tl & -> & Hp & Hl & Htl & Hs & Hr & Hd).
  cbn [fst snd]. split; [apply folder_listings_names|].
  split; [exact Hd|]. split.
  - eexists. split; [reflexivity|]. repeat split.
  - rewrite Hp. apply phases_filter.
Qed.

(** C8, as the code has it. When /DCIM can be listed, the date phase
    emits a progress update for the files numbered 1, 11, 21, ... (index
    [i] with [i % 10 == 0]) whose date could be read, and for no other
    file; the update gives the number of the file, the number of
    candidates and the old photos found so far. *)
Theorem C8_stat_progress_every_tenth_file (cutoff_date : Z) (self : App)
    (d d1 : Dev) (entries : list string) :
  afc_listdir "/DCIM" d = (inr entries, d1) ->
  let run := scan_thread utc_offset cutoff_date self in
  let checks := scan_checks utc_offset entries d1 in
  filter is_stat_update (progress_of (events_of run d)) = stat_updates cutoff_date checks /\
  length checks = length (scan_candidates entries d1) /\
  stat_calls (events_of run d) = scan_candidates entries d1.
Proof.
  intros Hroot. cbv zeta. unfold value_of, events_of.
  destruct (scan_thread_run utc_offset cutoff_date self d d1 entries Hroot)
    as (d' & evs & tl & -> & Hp & Hl & Htl & Hs & Hr & Hd).
  cbn [fst snd]. split; [|split].
  - rewrite Hp. apply phases_filter.
  - apply date_checks_length.
  - exact Hs.
Qed.

(** C9, as the code has it. In a scan, [current] strictly increases from
    one progress update to the next inside each of the three phases
    (folders, dates, thumbnails); every phase counts from 1 again, so
    [current] may stay or drop where the folder phase ends and where the
    thumbnail phase starts. In a deletion the updates are numbered 1, 2,
    ... up to the number of photos, so [current] strictly increases
    throughout. *)
Theorem C9_progress_increases_within_each_phase (cutoff_date : Z) (dry_run : bool)
    (self : App) (d : Dev) :
  increasing_within_phases
    (progress_of (events_of (scan_thread utc_offset cutoff_date self) d)) /\
  currents_of (events_of (delete_thread dry_run self) d)
    = seq 1 (length (photos_data self)) /\
  Sorted lt (currents_of (events_of (delete_thread dry_run self) d)).
Proof.
  split.
  - unfold events_of.
    destruct (afc_listdir "/DCIM" d) as [[e|entries] d1] eqn:Hroot.
    + rewrite (scan_thread_fatal utc_offset cutoff_date _ d d1 e Hroot).
      intros [|k] u v Hu Hv; discriminate.
    + destruct (scan_thread_run utc_offset cutoff_date self d d1 entries Hroot)
        as (d' & evs & tl & -> & Hp & _).
      cbn [snd]. rewrite Hp. apply phases_increasing.
  - assert (E : currents_of (events_of (delete_thread dry_run self) d)
                = seq 1 (length (photos_data self)))
      by apply delete_thread_currents.
    split; [exact E|]. rewrite E. clear E.
    generalize 1. induction (length (photos_data self)) as [|n IH]; intros i;
      [constructor|].
    cbn [seq]. constructor; [apply IH|]. destruct n; constructor. lia.
Qed.

End ScanClaims.

(** ** The examples of the specification, on the example devices *)

Section Examples.

Local Open Scope string_scope.

(** Folder 101APPLE cannot be listed: the scan returns IMG_01.JPG, one
    folder failure and no stat failure. *)
Example example_scan_result :
  value_of example_scan example_device =
    ({| photos_data :=
          [{| path := "/DCIM/100APPLE/IMG_01.JPG"; filename := "IMG_01.JPG";
              date := {| dt_day := day_2024_01_01; dt_second := 0 |}; size := 1000 |}];
        thumbnails :=
          [{| thumb_path := "/DCIM/100APPLE/IMG_01.JPG"; thumb_filename := "IMG_01.JPG";
              thumb_selected := true |}] |},
     inr {| dcim_folders := ["100APPLE"; "101APPLE"];
            all_photos := ["/DCIM/100APPLE/IMG_01.JPG"; "/DCIM/100APPLE/IMG_02.MOV"];
            old_photos :=
              [{| path := "/DCIM/100APPLE/IMG_01.JPG"; filename := "IMG_01.JPG";
                  date := {| dt_day := day_2024_01_01; dt_second := 0 |}; size := 1000 |}];
            scan_errors := ["Folder 101APPLE: No such file or directory"];
            date_check_errors := 0 |}).
Proof. vm_compute. reflexivity. Qed.

Example example_scan_events :
  events_of example_scan example_device =
    [Listdir "/DCIM";
     Listdir "/DCIM/100APPLE";
     UpdateProgress 1 2 "Scanning 100APPLE...";
     Listdir "/DCIM/101APPLE";
     Logged WARNING "Error scanning folder 101APPLE: No such file or directory";
     Stat "/DCIM/100APPLE/IMG_01.JPG";
     UpdateProgress 1 2 "Checking dates... Found 1 old photos";
     Stat "/DCIM/100APPLE/IMG_02.MOV";
     GetFileContents "/DCIM/100APPLE/IMG_01.JPG";
     UpdateProgress 1 1 "Loading thumbnails..."].
Proof. vm_compute. reflexivity. Qed.

Example example_scan_progress :
  progress_of (events_of example_scan example_device) =
    [(1, 2, "Scanning 100APPLE...");
     (1, 2, "Checking dates... Found 1 old photos");
     (1, 1, "Loading thumbnails...")].
Proof. rewrite example_scan_events. reflexivity. Qed.

Example classify_examples :
  classify "clip.M4V" = Video /\ classify "photo.HEIC" = HeicImage /\
  classify "IMG_01.JPG" = Image /\ classify "note.txt" = Unsupported.
Proof. repeat split. Qed.

(** Five photos, all removed. *)
Example delete_all_succeed :
  snd (value_of (delete_thread false five_app) five_device) =
    {| deleted := 5; errors := 0; error_files := []; mode := "" |} /\
  fake_files (device_after (delete_thread false five_app) five_device) = [].
Proof. vm_compute. split; reflexivity. Qed.

(** Photo 3 of 5 cannot be removed: photos 4 and 5 are removed all the
    same and [error_files] holds the name of photo 3. *)
Example delete_third_fails :
  snd (value_of (delete_thread false five_app) locked_device) =
    {| deleted := 4; errors := 1; error_files := ["IMG_3.JPG"]; mode := "" |} /\
  rm_calls (events_of (delete_thread false five_app) locked_device) =
    ["/DCIM/100APPLE/IMG_1.JPG"; "/DCIM/100APPLE/IMG_2.JPG"; "/DCIM/100APPLE/IMG_3.JPG";
     "/DCIM/100APPLE/IMG_4.JPG"; "/DCIM/100APPLE/IMG_5.JPG"] /\
  map fst (fake_files (device_after (delete_thread false five_app) locked_device)) =
    ["/DCIM/100APPLE/IMG_3.JPG"] /\
  log_of (events_of (delete_thread false five_app) locked_device) =
    [(INFO, "Deleted: /DCIM/100APPLE/IMG_1.JPG");
     (INFO, "Deleted: /DCIM/100APPLE/IMG_2.JPG");
     (ERROR, "Failed to delete /DCIM/100APPLE/IMG_3.JPG: Permission denied");
     (INFO, "Deleted: /DCIM/100APPLE/IMG_4.JPG");
     (INFO, "Deleted: /DCIM/100APPLE/IMG_5.JPG")].
Proof. vm_compute. repeat split; reflexivity. Qed.

Example delete_third_vanished :
  snd (value_of (delete_thread false five_app) vanished_device) =
    {| deleted := 4; errors := 1; error_files := ["IMG_3.JPG"]; mode := "" |} /\
  map snd (removal_failures (removals (photos_data five_app) vanished_device)) =
    ["No such file or directory"] /\
  map snd (removal_failures (removals (photos_data five_app) locked_device)) =
    ["Permission denied"].
Proof. vm_compute. repeat split; reflexivity. Qed.

(** A dry run twice gives the same report twice. *)
Example dry_run_twice :
  let run := delete_thread true five_app in
  snd (value_of run five_device) = snd (value_of run (device_after run five_device)).
Proof. vm_compute. reflexivity. Qed.

(** Removing again what has been removed reports five failures. *)
Example delete_twice :
  let run := delete_thread false five_app in
  snd (value_of run (device_after run five_device)) =
    {| deleted := 0; errors := 5; error_files := five_names; mode := "" |}.
Proof. vm_compute. reflexivity. Qed.

(** C3. With five photos found and the box of the second thumbnail
    cleared, [get_selected] gives the four other thumbnails, in the order
    of the scan; a real deletion calls [self.afc.rm] on the five photos
    all the same, the second one included, and the device is left with
    no file. *)
Theorem C3_deselected_photo_is_removed :
  let run := _delete_selected false true true five_app_without_second in
  map thumb_filename (get_selected (thumbnails five_app_without_second)) =
    ["IMG_1.JPG"; "IMG_3.JPG"; "IMG_4.JPG"; "IMG_5.JPG"] /\
  rm_calls (events_of run five_device) =
    ["/DCIM/100APPLE/IMG_1.JPG"; "/DCIM/100APPLE/IMG_2.JPG"; "/DCIM/100APPLE/IMG_3.JPG";
     "/DCIM/100APPLE/IMG_4.JPG"; "/DCIM/100APPLE/IMG_5.JPG"] /\
  snd (value_of run five_device) =
    Some {| deleted := 5; errors := 0; error_files := []; mode := "" |} /\
  fake_files (device_after run five_device) = [].
Proof. vm_compute. repeat split; reflexivity. Qed.

(** C4, as the specification words it, does not hold: the report of a
    deletion does not tell why a removal failed. A device that refuses
    to remove photo 3 and a device that has lost it give the same
    report. *)
Lemma C4_cause_is_not_in_the_report : ~ report_tells_causes (Dev := FakeDevice).
Proof.
  intros [cause_of H].
  pose proof (H five_app locked_device) as A.
  pose proof (H five_app vanished_device) as B.
  destruct delete_third_fails as (Ra & _).
  destruct delete_third_vanished as (Rb & Cb & Ca).
  rewrite Ra, Ca in A. rewrite Rb, Cb in B.
  rewrite A in B. discriminate.
Qed.

(** C5, as the specification words it, does not hold: what a scan
    leaves to its caller does not tell its diagnostics. A device with a
    folder that cannot be listed and a file that cannot be stat'ed, and
    a device that fails nowhere, leave the same photos and thumbnails. *)
Lemma C5_diagnostics_are_not_in_the_result :
  ~ result_tells_diagnostics (Dev := FakeDevice) 0.
Proof.
  intros [diagnostics_of H].
  pose proof (H day_2025_01_01 empty_app flaky_device _ eq_refl) as A.
  pose proof (H day_2025_01_01 empty_app sound_device _ eq_refl) as B.
  vm_compute in A, B. rewrite A in B. discriminate.
Qed.

(** C7, as the specification words it, does not hold: no progress
    update is emitted for folder 101APPLE, whose listing fails. *)
Lemma C7_no_update_for_failed_folder :
  ~ one_update_per_folder ["100APPLE"; "101APPLE"]
      (progress_of (events_of example_scan example_device)).
Proof.
  intros H. specialize (H 1 "101APPLE" eq_refl).
  rewrite example_scan_progress in H. cbn in H.
  destruct H as [H|[H|[H|[]]]]; discriminate.
Qed.

(** C8, as the specification words it, does not hold: of two files,
    only the first gets a progress update. *)
Lemma C8_final_file_not_reported :
  ~ final_file_reported 2 (progress_of (events_of example_scan example_device)).
Proof.
  intros H. destruct (H (Nat.lt_0_succ 1)) as [message E].
  rewrite example_scan_progress in E. vm_compute in E. discriminate.
Qed.

(** C9, as the specification words it, does not hold: [current] is 1 in
    the update of the date phase and 1 again in the update of the
    thumbnail phase that follows it. *)
Lemma C9_current_repeats_at_thumbnail_phase :
  ~ increasing_but_folder_to_stat (progress_of (events_of example_scan example_device)).
Proof.
  intros H. rewrite example_scan_progress in H.
  destruct (H 1 _ _ eq_refl eq_refl) as [C|[C _]].
  - vm_compute in C. lia.
  - discriminate.
Qed.

(** *** The statements with a premise, applied to the example *)

Lemma C5_witness :
  afc_listdir "/DCIM" example_device
    = (inr ["."; ".."; "100APPLE"; "101APPLE"], example_device) /\
  exists locals,
    snd (value_of example_scan example_device) = inr locals /\
    scan_errors locals = ["Folder 101APPLE: No such file or directory"] /\
    date_check_errors locals = 0.
Proof.
  assert (Hroot : afc_listdir "/DCIM" example_device
                  = (inr ["."; ".."; "100APPLE"; "101APPLE"], example_device))
    by reflexivity.
  split; [exact Hroot|].
  destruct (C5_scan_diagnostics_are_gathered_and_logged (Dev := FakeDevice) 0
              day_2025_01_01 empty_app example_device example_device
              ["."; ".."; "100APPLE"; "101APPLE"] Hroot)
    as (locals & Hl & He & Hn & _).
  exists locals. split; [exact Hl|]. split; [exact He | exact Hn].
Defined.

Lemma C6_witness :
  classify "clip.M4V" = Video /\
  (~ exists stem ext : string, "note.txt" = stem ++ ext /\ In (lower ext) media_extensions) /\
  stat_calls (events_of example_scan example_device)
    = ["/DCIM/100APPLE/IMG_01.JPG"; "/DCIM/100APPLE/IMG_02.MOV"].
Proof.
  destruct (C6_classification_by_extension (Dev := FakeDevice) 0)
    as (_ & _ & _ & Hv & Hu & Hs).
  split; [|split].
  - apply (Hv "clip" ".M4V"). right; right; left. reflexivity.
  - apply (proj1 (Hu "note.txt")). reflexivity.
  - destruct (Hs day_2025_01_01 empty_app example_device _ eq_refl) as (_ & H & _).
    exact H.
Defined.

Lemma C7_witness :
  afc_listdir "/DCIM" example_device
    = (inr ["."; ".."; "100APPLE"; "101APPLE"], example_device) /\
  filter is_folder_update (progress_of (events_of example_scan example_device))
    = folder_updates (scan_listings ["."; ".."; "100APPLE"; "101APPLE"] example_device).
Proof.
  assert (Hroot : afc_listdir "/DCIM" example_device
                  = (inr ["."; ".."; "100APPLE"; "101APPLE"], example_device))
    by reflexivity.
  split; [exact Hroot|].
  destruct (C7_progress_update_after_each_listed_folder (Dev := FakeDevice) 0
              day_2025_01_01 empty_app example_device example_device
              ["."; ".."; "100APPLE"; "101APPLE"] Hroot)
    as (_ & _ & _ & H).
  exact H.
Defined.

Lemma C8_witness :
  afc_listdir "/DCIM" example_device
    = (inr ["."; ".."; "100APPLE"; "101APPLE"], example_device) /\
  filter is_stat_update (progress_of (events_of example_scan example_device))
    = stat_updates day_2025_01_01
        (scan_checks 0 ["."; ".."; "100APPLE"; "101APPLE"] example_device).
Proof.
  assert (Hroot : afc_listdir "/DCIM" example_device
                  = (inr ["."; ".."; "100APPLE"; "101APPLE"], example_device))
    by reflexivity.
  split; [exact Hroot|].
  destruct (C8_stat_progress_every_tenth_file (Dev := FakeDevice) 0
              day_2025_01_01 empty_app example_device example_device
              ["."; ".."; "100APPLE"; "101APPLE"] Hroot)
    as (H & _).
  exact H.
Defined.

End Examples.

(** * Properties of the rest of the application *)

(** ** Reading numbers *)

Section IntFacts.

Local Open Scope string_scope.

Lemma str_digits (d : Decimal.uint) :
  PyInt.all_digits (NilEmpty.string_of_uint d) = true.
Proof. induction d; simpl; auto. Qed.

Lemma all_digits_append (a b : string) :
  PyInt.all_digits (a ++ b) = PyInt.all_digits a && PyInt.all_digits b.
Proof.
  induction a as [|c a IH]; simpl; [reflexivity|].
  now rewrite IH, andb_assoc.
Qed.

Lemma all_digits_rev (s : string) :
  PyInt.all_digits (rev_string s) = PyInt.all_digits s.
Proof.
  induction s as [|c s IH]; simpl; [reflexivity|].
  rewrite all_digits_append, IH. simpl. rewrite andb_true_r. apply andb_comm.
Qed.

Lemma digit_not_space (c : ascii) :
  PyInt.is_digit c = true -> PyInt.is_space c = false.
Proof.
  destruct c as [[] [] [] [] [] [] [] []]; vm_compute; intros H;
    first [reflexivity | discriminate H].
Qed.

Lemma digit_not_sign (c : ascii) (s : string) :
  PyInt.is_digit c = true ->
  match String c s with
  | String "-" rest => (true, rest)
  | String "+" rest => (false, rest)
  | _ => (false, String c s)
  end = (false, String c s).
Proof.
  destruct c as [[] [] [] [] [] [] [] []]; vm_compute; intros H;
    first [reflexivity | discriminate H].
Qed.

Lemma lstrip_digits (s : string) : PyInt.all_digits s = true -> PyInt.lstrip s = s.
Proof.
  destruct s as [|c s]; simpl; [reflexivity|]. intros H.
  apply andb_prop in H as [H _]. now rewrite (digit_not_space c H).
Qed.

Lemma strip_digits (s : string) : PyInt.all_digits s = true -> PyInt.strip s = s.
Proof.
  intros H. unfold PyInt.strip. rewrite (lstrip_digits s H).
  rewrite lstrip_digits by now rewrite all_digits_rev.
  apply rev_string_involutive.
Qed.

Lemma count_digits_length (s : string) : PyInt.count_digits s <= String.length s.
Proof.
  induction s as [|c s IH]; simpl; [lia|]. destruct (PyInt.is_digit c); lia.
Qed.

(** Reading the digits of a printed number follows [Nat.of_uint_acc]. *)
Lemma digits_of_uint (d : Decimal.uint) :
  forall (acc : N) (after_digit : bool),
    d <> Decimal.Nil \/ after_digit = true ->
    PyInt.digits (NilEmpty.string_of_uint d) acc after_digit
    = Some (N.of_nat (Nat.of_uint_acc d (N.to_nat acc))).
Proof.
  induction d; intros acc b H;
    [destruct H as [H | ->]; [congruence|]; simpl; now rewrite N2Nat.id | ..];
    cbn [NilEmpty.string_of_uint PyInt.digits Nat.of_uint_acc];
    match goal with
    | |- context [PyInt.is_digit ?c] => change (PyInt.is_digit c) with true
    end;
    cbv beta iota; rewrite IHd by (now right); do 3 f_equal;
    rewrite Nat.tail_mul_spec;
    match goal with
    | |- context [PyInt.digit_value ?c] =>
        let v := eval vm_compute in (PyInt.digit_value c) in
        change (PyInt.digit_value c) with v
    end;
    lia.
Qed.

Lemma int_str_uint (n : nat) :
  String.length (str n) <= PyInt.max_str_digits ->
  PyInt.int (str n) = Some (Z.of_nat n).
Proof.
  intros Hlen. unfold PyInt.int, str in *.
  pose proof (str_digits (Nat.to_uint n)) as Hd.
  rewrite (strip_digits _ Hd).
  assert (Hne : Nat.to_uint n <> Decimal.Nil).
  { intros E. pose proof (Unsigned.of_to n) as R. rewrite E in R.
    destruct n; [|discriminate R].
    unfold Nat.to_uint in E. simpl in E. discriminate E. }
  destruct (NilEmpty.string_of_uint (Nat.to_uint n)) as [|c s] eqn:Es.
  - destruct (Nat.to_uint n); simpl in Es; congruence.
  - simpl in Hd. apply andb_prop in Hd as [Hc _].
    rewrite (digit_not_sign c s Hc).
    pose proof (count_digits_length (String c s)) as Hc'.
    destruct (PyInt.max_str_digits <? PyInt.count_digits (String c s))%nat eqn:E.
    + apply Nat.ltb_lt in E. lia.
    + rewrite <- Es, (digits_of_uint _ 0%N false (or_introl Hne)).
      change (N.to_nat 0) with 0. fold (Nat.of_uint (Nat.to_uint n)).
      rewrite Unsigned.of_to. now rewrite nat_N_Z.
Qed.

End IntFacts.

(** ** The calendar *)

Section Calendar.

Local Open Scope Z_scope.

Ltac by_euclid := Z.to_euclidean_division_equations; lia.

Lemma is_leap_cases (y : Z) :
  (PyDate.is_leap y = true /\ y mod 4 = 0 /\ (y mod 100 <> 0 \/ y mod 400 = 0)) \/
  (PyDate.is_leap y = false /\ (y mod 4 <> 0 \/ (y mod 100 = 0 /\ y mod 400 <> 0))).
Proof.
  unfold PyDate.is_leap.
  destruct (Z.eqb_spec (y mod 4) 0), (Z.eqb_spec (y mod 100) 0),
    (Z.eqb_spec (y mod 400) 0); simpl; intuition.
Qed.

(** A year is 365 or 366 days long. *)
Lemma days_before_year_next (y : Z) :
  PyDate.days_before_year (y + 1)
  = PyDate.days_before_year y + 365 + (if PyDate.is_leap y then 1 else 0).
Proof.
  unfold PyDate.days_before_year. replace (y + 1 - 1) with y by lia.
  destruct (is_leap_cases y) as [(-> & H)|(-> & H)]; by_euclid.
Qed.

Lemma days_before_year_mono (y1 y2 : Z) :
  y1 <= y2 -> PyDate.days_before_year y1 <= PyDate.days_before_year y2.
Proof. unfold PyDate.days_before_year. intros H. by_euclid. Qed.

Lemma check_date_fields_spec (y m d : Z) :
  PyDate.check_date_fields y m d = true <->
  PyDate.MINYEAR <= y <= PyDate.MAXYEAR /\ 1 <= m <= 12
  /\ 1 <= d <= PyDate.days_in_month y m.
Proof.
  unfold PyDate.check_date_fields.
  rewrite !andb_true_iff, !Z.leb_le. intuition.
Qed.

Lemma month_cases (m : Z) :
  1 <= m <= 12 ->
  m = 1 \/ m = 2 \/ m = 3 \/ m = 4 \/ m = 5 \/ m = 6 \/
  m = 7 \/ m = 8 \/ m = 9 \/ m = 10 \/ m = 11 \/ m = 12.
Proof. lia. Qed.

Ltac each_month H :=
  apply month_cases in H;
  destruct H as [H|[H|[H|[H|[H|[H|[H|[H|[H|[H|[H|H]]]]]]]]]]]; subst.

Ltac months_compute :=
  cbv [PyDate.DAYS_IN_MONTH PyDate.DAYS_BEFORE_MONTH Z.eqb Z.ltb Z.compare
       Pos.compare Pos.compare_cont Pos.eqb andb] in *.

(** The day of the year of a date lies in the year. *)
Lemma day_of_year_bounds (y m d : Z) :
  1 <= m <= 12 -> 1 <= d <= PyDate.days_in_month y m ->
  1 <= PyDate.days_before_month y m + d <= 365 + (if PyDate.is_leap y then 1 else 0).
Proof.
  intros Hm. unfold PyDate.days_in_month, PyDate.days_before_month.
  each_month Hm; destruct (PyDate.is_leap y); months_compute; lia.
Qed.

(** Inside a year, the days of the year follow the order of (month, day). *)
Lemma day_of_year_mono (y m1 d1 m2 d2 : Z) :
  1 <= m1 <= 12 -> 1 <= d1 <= PyDate.days_in_month y m1 ->
  1 <= m2 <= 12 -> 1 <= d2 <= PyDate.days_in_month y m2 ->
  m1 < m2 \/ (m1 = m2 /\ d1 < d2) ->
  PyDate.days_before_month y m1 + d1 < PyDate.days_before_month y m2 + d2.
Proof.
  intros H1 Hd1 H2 Hd2 Hlt.
  unfold PyDate.days_in_month, PyDate.days_before_month in *.
  each_month H1; each_month H2; destruct (PyDate.is_leap y); months_compute; lia.
Qed.

Lemma toordinal_mono (a b : PyDate.date) :
  PyDate.check_date_fields (PyDate.year a) (PyDate.month a) (PyDate.day a) = true ->
  PyDate.check_date_fields (PyDate.year b) (PyDate.month b) (PyDate.day b) = true ->
  PyDate.lt a b = true -> PyDate.toordinal a < PyDate.toordinal b.
Proof.
  rewrite !check_date_fields_spec. intros (Ya & Ma & Da) (Yb & Mb & Db).
  unfold PyDate.lt, PyDate.toordinal.
  rewrite !orb_true_iff, !andb_true_iff, !orb_true_iff, !andb_true_iff,
    !Z.ltb_lt, !Z.eqb_eq.
  intros [Hy|[Hy Hmd]].
  - pose proof (day_of_year_bounds _ _ _ Ma Da) as Ba.
    pose proof (day_of_year_bounds _ _ _ Mb Db) as Bb.
    pose proof (days_before_year_next (PyDate.year a)) as N.
    pose proof (days_before_year_mono (PyDate.year a + 1) (PyDate.year b)
                  ltac:(lia)) as M.
    lia.
  - rewrite Hy in *.
    pose proof (day_of_year_mono _ _ _ _ _ Ma Da Mb Db Hmd). lia.
Qed.

Lemma lt_total (a b : PyDate.date) :
  PyDate.lt a b = true \/ a = b \/ PyDate.lt b a = true.
Proof.
  destruct a as [ya ma da], b as [yb mb db]. unfold PyDate.lt. simpl.
  destruct (Z.ltb_spec ya yb), (Z.ltb_spec yb ya), (Z.eqb_spec ya yb),
    (Z.eqb_spec yb ya), (Z.ltb_spec ma mb), (Z.ltb_spec mb ma),
    (Z.eqb_spec ma mb), (Z.eqb_spec mb ma), (Z.ltb_spec da db),
    (Z.ltb_spec db da); simpl; auto; try lia.
  right; left. f_equal; lia.
Qed.

End Calendar.

(** ** The date picker *)

Section DatePicker.

Local Open Scope string_scope.

(** X1. [int] reads back what [str] prints: for every natural number
    whose decimal form has at most 4300 digits, [int(str(n)) == n]. These
    are the strings the day and year comboboxes are filled with. *)
Theorem X1_int_reads_back_str (n : nat) :
  (String.length (str n) <= PyInt.max_str_digits)%nat ->
  PyInt.int (str n) = Some (Z.of_nat n).
Proof. apply int_str_uint. Qed.

Lemma X1_witness :
  (String.length (str 2025) <= PyInt.max_str_digits)%nat /\
  PyInt.int (str 2025) = Some 2025%Z.
Proof.
  assert (H : (String.length (str 2025) <= PyInt.max_str_digits)%nat)
    by (apply Nat.leb_le; vm_compute; reflexivity).
  split; [exact H | exact (X1_int_reads_back_str 2025 H)].
Defined.

(** Runs through the numbers [base], [base + 1], ... below a bound. *)
Tactic Notation "each_from" constr(base) integer(count) constr(n) :=
  let k := fresh "k" in
  assert (exists k, n = (base + k)%nat) as [k ->] by (exists (n - base)%nat; lia);
  do count (destruct k as [|k]; [vm_compute; reflexivity|]);
  exfalso; lia.

Lemma int_offered_year (y : nat) :
  (2015 <= y <= 2026)%nat -> PyInt.int (str y) = Some (Z.of_nat y).
Proof. intros H. each_from 2015%nat 12 y. Qed.

Lemma int_offered_day (d : nat) :
  (1 <= d <= 31)%nat -> PyInt.int (str d) = Some (Z.of_nat d).
Proof. intros H. each_from 1%nat 31 d. Qed.

Lemma months_offered (m : nat) :
  (1 <= m <= 12)%nat ->
  lookup (nth (m - 1) month_names "") months = Some (Z.of_nat m).
Proof. intros H. each_from 1%nat 12 m. Qed.

Lemma as_c_int_small (z : Z) : (- 2 ^ 31 <= z < 2 ^ 31)%Z -> as_c_int z = inr z.
Proof.
  intros H. unfold as_c_int.
  destruct (Z.ltb_spec z (- 2 ^ 63)); [lia|].
  destruct (Z.leb_spec (2 ^ 63) z); [lia|]. cbn [orb].
  destruct (Z.leb_spec (2 ^ 31) z); [lia|].
  destruct (Z.ltb_spec z (- 2 ^ 31)); [lia|]. reflexivity.
Qed.

Lemma check_offered (y m d : nat) :
  (2015 <= y <= 2026)%nat -> (1 <= m <= 12)%nat -> (1 <= d <= 31)%nat ->
  PyDate.check_date_fields (Z.of_nat y) (Z.of_nat m) (Z.of_nat d)
  = (Z.of_nat d <=? PyDate.days_in_month (Z.of_nat y) (Z.of_nat m))%Z.
Proof.
  intros Hy Hm Hd. unfold PyDate.check_date_fields, PyDate.MINYEAR, PyDate.MAXYEAR.
  repeat match goal with
         | |- context [(?a <=? ?b)%Z && _] =>
             replace (a <=? b)%Z with true by (symmetry; apply Z.leb_le; lia);
             cbn [andb]
         end.
  reflexivity.
Qed.

Lemma get_date_offered (y m d : nat) :
  (2015 <= y <= 2026)%nat -> (1 <= m <= 12)%nat -> (1 <= d <= 31)%nat ->
  get_date (picker_at y m d)
  = inr (if (Z.of_nat d <=? PyDate.days_in_month (Z.of_nat y) (Z.of_nat m))%Z
         then Some {| PyDate.year := Z.of_nat y; PyDate.month := Z.of_nat m;
                      PyDate.day := Z.of_nat d |}
         else None).
Proof.
  intros Hy Hm Hd. unfold get_date, picker_at. cbn [year_var month_var day_var].
  rewrite (int_offered_year y Hy), (months_offered m Hm), (int_offered_day d Hd).
  rewrite !as_c_int_small by lia.
  rewrite (check_offered y m d Hy Hm Hd).
  now destruct (Z.of_nat d <=? _)%Z.
Qed.







Lemma date_order_is_day_order (a b : PyDate.date) :
  PyDate.check_date_fields (PyDate.year a) (PyDate.month a) (PyDate.day a) = true ->
  PyDate.check_date_fields (PyDate.year b) (PyDate.month b) (PyDate.day b) = true ->
  (PyDate.lt a b = true <-> (PyDate.epoch_day a < PyDate.epoch_day b)%Z).
Proof.
  intros Ha Hb. unfold PyDate.epoch_day. split.
  - intros H. pose proof (toordinal_mono a b Ha Hb H). lia.
  - intros H. destruct (lt_total a b) as [L|[E|L]]; [exact L | |].
    + subst. lia.
    + pose proof (toordinal_mono b a Hb Ha L). lia.
Qed.

(** X4. The test of the scan agrees with the order of calendar dates:
    for a file whose modification day is the real calendar date
    [file_date], and a cutoff that is the real calendar date [cutoff]
    (as the picker gives it), the file is old exactly when [file_date <
    cutoff] as Python compares dates, by year, then month, then day. *)
Theorem X4_old_test_is_date_order (file_date cutoff : PyDate.date) (st : StatDict)
    (mtime : datetime) :
  PyDate.check_date_fields (PyDate.year file_date) (PyDate.month file_date)
    (PyDate.day file_date) = true ->
  PyDate.check_date_fields (PyDate.year cutoff) (PyDate.month cutoff)
    (PyDate.day cutoff) = true ->
  datetime_date mtime = PyDate.epoch_day file_date ->
  is_old (PyDate.epoch_day cutoff) (inr (st, mtime)) = PyDate.lt file_date cutoff.
Proof.
  intros Hf Hc Hm. cbn [is_old]. rewrite Hm.
  pose proof (date_order_is_day_order file_date cutoff Hf Hc) as O.
  destruct (PyDate.lt file_date cutoff).
  - apply Z.ltb_lt, O. reflexivity.
  - apply Z.ltb_ge. destruct (Z.lt_ge_cases (PyDate.epoch_day file_date)
                                (PyDate.epoch_day cutoff)) as [L|L]; [|lia].
    apply O in L. discriminate L.
Qed.

Lemma X4_witness :
  let file_date := {| PyDate.year := 2024; PyDate.month := 12; PyDate.day := 31 |} in
  let cutoff := {| PyDate.year := 2025; PyDate.month := 1; PyDate.day := 1 |} in
  is_old (PyDate.epoch_day cutoff)
         (inr ({| st_mtime := None; st_size := None |},
               {| dt_day := 20088; dt_second := 0 |}))
  = PyDate.lt file_date cutoff.
Proof.
  cbv zeta.
  exact (X4_old_test_is_date_order
           {| PyDate.year := 2024; PyDate.month := 12; PyDate.day := 31 |}
           {| PyDate.year := 2025; PyDate.month := 1; PyDate.day := 1 |}
           {| st_mtime := None; st_size := None |}
           {| dt_day := 20088; dt_second := 0 |}
           eq_refl eq_refl eq_refl).
Defined.



End DatePicker.

Section ScanButtonFacts.

Context {Dev : Type} {afc : AfcService Dev}.

(** X6. When the picker is set to a day the month does not have (for
    instance February 30), pressing Scan does nothing to the device and
    to the application: no call is made, and the photos and the grid of
    an earlier scan stay as they are. *)
Theorem X6_impossible_date_scans_nothing (utc_offset : Z) (y m d : nat) (self : App) :
  (2015 <= y <= 2026)%nat -> (1 <= m <= 12)%nat -> (1 <= d <= 31)%nat ->
  (PyDate.days_in_month (Z.of_nat y) (Z.of_nat m) < Z.of_nat d)%Z ->
  exists run : Io Dev (App * option (Exception + ScanLocals)),
    scan_pressed utc_offset (picker_at y m d) self = inr run /\
    forall dev : Dev, run dev = ((self, None), dev, []).
Proof.
  intros Hy Hm Hd Hbad. unfold scan_pressed.
  rewrite (get_date_offered y m d Hy Hm Hd).
  destruct (Z.leb_spec (Z.of_nat d) (PyDate.days_in_month (Z.of_nat y) (Z.of_nat m)));
    [lia|].
  eexists. split; reflexivity.
Qed.

End ScanButtonFacts.

Lemma X6_witness :
  exists run : Io FakeDevice (App * option (Exception + ScanLocals)),
    scan_pressed 0 (picker_at 2025 2 30) five_app = inr run /\
    run five_device = ((five_app, None), five_device, []).
Proof.
  destruct (X6_impossible_date_scans_nothing (Dev := FakeDevice) 0 2025 2 30 five_app
              ltac:(lia) ltac:(lia) ltac:(lia) ltac:(vm_compute; reflexivity))
    as (run & E & H).
  exists run. split; [exact E | apply H].
Defined.

(** ** Connecting to the phone *)

Section ConnectFacts.

Local Open Scope string_scope.

(** [contains] is the [in] of Python strings. *)
Lemma contains_iff (needle s : string) :
  contains needle s = true <-> exists a b, s = a ++ needle ++ b.
Proof.
  induction s as [|c s IH].
  - cbn [contains]. rewrite orb_false_r, prefix_iff. split.
    + intros [t ->]. now exists "", t.
    + intros [a [b H]]. destruct a; [now exists b|discriminate].
  - cbn [contains]. rewrite orb_true_iff, IH, prefix_iff. split.
    + intros [[t ->]|[a [b ->]]]; [now exists "", t | now exists (String c a), b].
    + intros [a [b H]]. destruct a as [|x a].
      * left. now exists b.
      * right. inversion H; subst. now exists a, b.
Qed.

Lemma lower_contains (w a b : string) :
  lower w = w -> contains w (lower (a ++ w ++ b)) = true.
Proof.
  intros H. apply contains_iff. exists (lower a), (lower b).
  now rewrite !lower_append, H.
Qed.

(** X7. The hint of a failed connection is chosen by words of the error
    text, whatever their letter case and in a fixed order: a text that
    mentions "usbmux" or "no device" gets the no-device hint even when it
    also mentions "trust" or "permission"; a text that mentions none of
    the six words gets the general hint, which quotes the text. *)
Theorem X7_connection_hint_by_words :
  (forall a w b : string,
     In (lower w) ["no device"; "usbmux"] ->
     connection_hint (a ++ w ++ b) = no_device_hint) /\
  (forall e : Exception,
     connection_hint e = other_hint e <->
     forall w, In w ["no device"; "usbmux"; "trust"; "pair"; "permission"; "access"] ->
               contains w (lower e) = false).
Proof.
  split.
  - intros a w b Hw. unfold connection_hint.
    assert (H : contains (lower w) (lower (a ++ w ++ b)) = true).
    { apply contains_iff. exists (lower a), (lower b). now rewrite !lower_append. }
    destruct Hw as [E|[E|[]]]; rewrite <- E in H; rewrite H;
      [reflexivity | now rewrite orb_true_r].
  - intros e. unfold connection_hint. split.
    + intros H w Hw.
      destruct (contains "no device" (lower e)) eqn:E1;
        [cbn [orb] in H; discriminate H|].
      destruct (contains "usbmux" (lower e)) eqn:E2;
        [cbn [orb] in H; discriminate H|].
      destruct (contains "trust" (lower e)) eqn:E3;
        [cbn [orb] in H; discriminate H|].
      destruct (contains "pair" (lower e)) eqn:E4;
        [cbn [orb] in H; discriminate H|].
      destruct (contains "permission" (lower e)) eqn:E5;
        [cbn [orb] in H; discriminate H|].
      destruct (contains "access" (lower e)) eqn:E6;
        [cbn [orb] in H; discriminate H|].
      cbn in Hw. intuition (subst; assumption).
    + intros H.
      rewrite (H "no device"), (H "usbmux"), (H "trust"), (H "pair"),
        (H "permission"), (H "access") by (cbn; auto 10).
      reflexivity.
Qed.

End ConnectFacts.

Section ConnectRuns.

Context {Dev : Type} {afc : AfcService Dev}.
Variable Lockdown : Type.

Local Open Scope string_scope.

(** X8. When a service could be started but /DCIM cannot be listed,
    whatever the error of the listing says (were it "permission
    denied"), the user is shown the "iPhone not trusted" hint; the error
    of the listing goes to the log only. The connect button is enabled
    again, the scan button is left as it was, and [self.afc] keeps the
    service that was just started. *)
Theorem X8_unlistable_dcim_gives_not_trusted_hint (heic : bool)
    (lockdown : Lockdown) (start_afc : Lockdown -> Exception + Dev)
    (self : Toolbar Dev) (d d1 : Dev) (dcim_error : Exception) :
  start_afc lockdown = inr d ->
  afc_listdir "/DCIM" d = (inl dcim_error, d1) ->
  let '(self', log, box) := _connect_iphone Lockdown true heic (inr lockdown) start_afc self in
  box = showerror "Connection Error" not_trusted_hint /\
  In (WARNING, "Could not list DCIM: " ++ dcim_error) log /\
  status_text self' = "Error: " ++ dcim_failure /\
  status_error self' = true /\
  connection_label self' = "Connection Failed" /\
  connect_btn self' = normal /\
  scan_btn self' = scan_btn self /\
  self_afc self' = Some d1.
Proof.
  intros Hs Hl. unfold _connect_iphone. cbn [negb]. rewrite Hs, Hl.
  unfold connection_failed, _set_status.
  cbn [self_afc status_icon connection_label connect_btn scan_btn status_text
       status_error].
  repeat split.
  cbn [app]. right; right; right; left. reflexivity.
Qed.

(** The two buttons and [self.afc], after any number of calls of
    [_connect_iphone]. *)
Lemma connect_invariant (self : Toolbar Dev) :
  connect_reachable Lockdown self ->
  (scan_btn self = normal -> self_afc self <> None) /\
  (connect_btn self = disabled -> scan_btn self = normal).
Proof.
  induction 1 as [|available heic usbmux start_afc self R [I1 I2]].
  - split; discriminate.
  - unfold _connect_iphone.
    destruct available; cbn [negb fst]; [|split; assumption].
    destruct usbmux as [e|lockdown]; cbn [fst].
    + unfold connection_failed, _set_status. cbn. split; [assumption|discriminate].
    + destruct (start_afc lockdown) as [e|d]; cbn [fst].
      * unfold connection_failed, _set_status. cbn. split; [assumption|discriminate].
      * destruct (afc_listdir "/DCIM" d) as [[e|entries] d1]; cbn.
        -- split; discriminate.
        -- split; [discriminate | reflexivity].
Qed.

(** X9. Through any number of connection attempts, succeeding or
    failing in any way, the scan button is enabled only when [self.afc]
    holds a service: [_scan_photos] never meets a missing connection
    through its button. And the connect button is disabled only after a
    connection that succeeded. *)
Theorem X9_scan_button_needs_a_connection (self : Toolbar Dev) :
  connect_reachable Lockdown self ->
  (scan_btn self = normal -> exists d, self_afc self = Some d) /\
  (connect_btn self = disabled -> scan_btn self = normal).
Proof.
  intros R. destruct (connect_invariant self R) as [I1 I2]. split; [|exact I2].
  intros H. specialize (I1 H). destruct (self_afc self) as [d|]; [now exists d|].
  congruence.
Qed.

(** X10. A connection that succeeds enables the scan button, stores the
    service, shows the green icon, and leaves the connect button
    disabled; the lines logged tell the number of entries of /DCIM. *)
Theorem X10_successful_connection (heic : bool)
    (lockdown : Lockdown) (start_afc : Lockdown -> Exception + Dev)
    (self : Toolbar Dev) (d d1 : Dev) (entries : list string) :
  start_afc lockdown = inr d ->
  afc_listdir "/DCIM" d = (inr entries, d1) ->
  let '(self', log, box) := _connect_iphone Lockdown true heic (inr lockdown) start_afc self in
  self_afc self' = Some d1 /\
  scan_btn self' = normal /\
  connect_btn self' = disabled /\
  status_icon self' = "🟢" /\
  status_error self' = false /\
  log = [(INFO, "Attempting to connect to iPhone via USB...");
         (INFO, "Lockdown connection established");
         (INFO, "AFC service started");
         (INFO, "DCIM accessible, found " ++ str (length entries) ++ " items")] /\
  exists message, box = showinfo "Connected! 📱" message.
Proof.
  intros Hs Hl. unfold _connect_iphone. cbn [negb]. rewrite Hs, Hl.
  unfold _set_status.
  cbn [self_afc status_icon connection_label connect_btn scan_btn status_text
       status_error].
  repeat split. eexists. reflexivity.
Qed.

End ConnectRuns.

Lemma X8_witness :
  let d := {| fake_dirs := []; fake_files := []; fake_locked := [] |} in
  let '(self', log, box) :=
    _connect_iphone unit true true (inr tt) (fun _ => inr d) (new_toolbar FakeDevice) in
  box = showerror "Connection Error" not_trusted_hint /\
  connect_btn self' = normal /\ scan_btn self' = disabled /\
  self_afc self' = Some d.
Proof.
  cbv zeta.
  pose proof (X8_unlistable_dcim_gives_not_trusted_hint (Dev := FakeDevice) unit true tt
                (fun _ => inr {| fake_dirs := []; fake_files := []; fake_locked := [] |})
                (new_toolbar FakeDevice)
                {| fake_dirs := []; fake_files := []; fake_locked := [] |}
                {| fake_dirs := []; fake_files := []; fake_locked := [] |}
                "No such file or directory" eq_refl eq_refl) as H.
  destruct (_connect_iphone unit true true (inr tt) _ (new_toolbar FakeDevice))
    as [[self' log] box].
  destruct H as (Hb & _ & _ & _ & _ & Hc & Hs & Ha).
  repeat split; assumption.
Defined.

Lemma X9_witness :
  let self := fst (fst (_connect_iphone unit true true (inr tt)
                          (fun _ => inr five_device) (new_toolbar FakeDevice))) in
  scan_btn self = normal /\ exists d, self_afc self = Some d.
Proof.
  cbv zeta.
  assert (R : connect_reachable unit
                (fst (fst (_connect_iphone unit true true (inr tt)
                             (fun _ => inr five_device) (new_toolbar FakeDevice)))))
    by (apply connect_next, connect_start).
  assert (S : scan_btn (fst (fst (_connect_iphone unit true true (inr tt)
                                    (fun _ => inr five_device) (new_toolbar FakeDevice))))
              = normal) by reflexivity.
  split; [exact S|].
  exact (proj1 (X9_scan_button_needs_a_connection unit _ R) S).
Defined.

Lemma X10_witness :
  let '(self', log, box) :=
    _connect_iphone unit true true (inr tt) (fun _ => inr five_device)
      (new_toolbar FakeDevice) in
  self_afc self' = Some five_device /\ scan_btn self' = normal /\
  connect_btn self' = disabled.
Proof.
  pose proof (X10_successful_connection (Dev := FakeDevice) unit true tt
                (fun _ => inr five_device) (new_toolbar FakeDevice)
                five_device five_device ["100APPLE"] eq_refl eq_refl) as H.
  destruct (_connect_iphone unit true true (inr tt) _ (new_toolbar FakeDevice))
    as [[self' log] box].
  destruct H as (Ha & Hs & Hc & _).
  repeat split; assumption.
Defined.

(** ** The progress dialog *)

Section DialogFacts.

Context {Dev : Type} {afc : AfcService Dev}.

Lemma enumerate_app {A : Type} (i : nat) (l : list A) (x : A) :
  enumerate i (l ++ [x]) = enumerate i l ++ [((i + length l)%nat, x)].
Proof.
  revert i; induction l as [|y l IH]; intros i.
  - cbn. now rewrite Nat.add_0_r.
  - cbn [app length]. rewrite !enumerate_cons, IH. cbn [app].
    now rewrite Nat.add_succ_r.
Qed.

Lemma in_enumerate_index {A : Type} (i j : nat) (x : A) (l : list A) :
  In (j, x) (enumerate i l) -> (i <= j < i + length l)%nat.
Proof. apply in_enumerate. Qed.

Lemma folder_updates_bounded (total i : nat)
    (listings : list (string * (Exception + list string))) :
  (i + length listings <= total)%nat ->
  Forall (fun u => (1 <= current u <= snd (fst u))%nat)
         (folder_updates_from total i listings).
Proof.
  intros H. unfold folder_updates_from. apply Forall_flat_map, Forall_forall.
  intros [j [folder [e|files]]] Hin; [constructor|].
  apply in_enumerate in Hin. constructor; [|constructor].
  unfold current. cbn. lia.
Qed.

Lemma stat_updates_bounded (cutoff_date : Z)
    (checks : list (Exception + (StatDict * datetime))) :
  Forall (fun u => (1 <= current u <= snd (fst u))%nat) (stat_updates cutoff_date checks).
Proof.
  unfold stat_updates. apply Forall_flat_map, Forall_forall.
  intros [j [e|y]] Hin; [constructor|].
  apply in_enumerate in Hin.
  destruct (j mod 10 =? 0)%nat; constructor; [|constructor].
  unfold current. cbn. lia.
Qed.

Lemma thumbnail_updates_bounded (n : nat) :
  Forall (fun u => (1 <= current u <= snd (fst u))%nat) (thumbnail_updates n).
Proof.
  unfold thumbnail_updates, thumbnail_updates_from. apply Forall_map, Forall_forall.
  intros j Hin. apply in_seq in Hin. unfold current. cbn. lia.
Qed.

Lemma delete_updates_bounded (dry_run : bool) (photos : list Photo) :
  Forall (fun u => (1 <= current u <= snd (fst u))%nat) (delete_updates dry_run photos).
Proof.
  unfold delete_updates, delete_updates_from. apply Forall_map, Forall_forall.
  intros [j p] Hin. apply in_enumerate in Hin. unfold current. cbn. lia.
Qed.

(** X11. In every scan and in every deletion, each progress update has
    [current] between 1 and [total]: the bar of the dialog is never set
    beyond its maximum, and the count label never reads more than the
    total. *)
Theorem X11_progress_never_exceeds_total (utc_offset cutoff_date : Z) (dry_run : bool)
    (self : App) (d : Dev) :
  Forall (fun u => (1 <= current u <= snd (fst u))%nat)
         (progress_of (events_of (scan_thread utc_offset cutoff_date self) d)) /\
  Forall (fun u => (1 <= current u <= snd (fst u))%nat)
         (progress_of (events_of (delete_thread dry_run self) d)).
Proof.
  split.
  - unfold events_of.
    destruct (afc_listdir "/DCIM" d) as [[e|entries] d1] eqn:Hroot.
    + rewrite (scan_thread_fatal utc_offset cutoff_date _ d d1 e Hroot). constructor.
    + destruct (scan_thread_run utc_offset cutoff_date self d d1 entries Hroot)
        as (d' & evs & tl & -> & Hp & _).
      cbn [snd]. rewrite Hp. rewrite !Forall_app. repeat split.
      * apply folder_updates_bounded. cbn. lia.
      * apply stat_updates_bounded.
      * apply thumbnail_updates_bounded.
  - rewrite delete_thread_progress. apply delete_updates_bounded.
Qed.

Lemma dialog_update_last (us : list (nat * nat * string)) (u : nat * nat * string)
    (dlg : RetroProgressDialog) :
  snd u <> ""%string ->
  fold_left (fun dlg u => dialog_update (fst (fst u)) (snd (fst u)) (snd u) dlg)
            (us ++ [u]) dlg
  = {| progress_maximum := snd (fst u);
       progress_value := fst (fst u);
       count_label := (str (fst (fst u)) ++ " / " ++ str (snd (fst u)))%string;
       status_label := snd u |}.
Proof.
  intros H. rewrite fold_left_app. cbn [fold_left]. unfold dialog_update.
  destruct (String.eqb_spec (snd u) ""%string); [contradiction | reflexivity].
Qed.

(** X12. A deletion of at least one photo, real or simulated, leaves the
    progress dialog with a full bar: value and maximum are the number of
    photos, the count label reads "n / n", and the status names the last
    photo. *)
Theorem X12_deletion_fills_the_progress_bar (dry_run : bool) (self : App) (d : Dev)
    (photos : list Photo) (photo : Photo) :
  photos_data self = photos ++ [photo] ->
  let n := length (photos_data self) in
  dialog_after (events_of (delete_thread dry_run self) d) new_dialog
  = {| progress_maximum := n;
       progress_value := n;
       count_label := (str n ++ " / " ++ str n)%string;
       status_label := ((if dry_run then "Simulating" else "Deleting") ++ ": "
                        ++ filename photo)%string |}.
Proof.
  intros E. cbv zeta. unfold dialog_after. rewrite delete_thread_progress.
  unfold delete_updates, delete_updates_from. rewrite E, enumerate_app, map_app.
  cbn [map]. rewrite dialog_update_last.
  - cbn [fst snd]. rewrite length_app. cbn [length plus]. reflexivity.
  - cbn [snd]. destruct dry_run; discriminate.
Qed.

End DialogFacts.

Lemma X12_witness :
  dialog_after (events_of (delete_thread false five_app) locked_device) new_dialog
  = {| progress_maximum := 5; progress_value := 5; count_label := "5 / 5";
       status_label := "Deleting: IMG_5.JPG" |}.
Proof.
  assert (E : exists photos photo,
             photos_data five_app = photos ++ [photo] /\ filename photo = "IMG_5.JPG"%string).
  { eexists (firstn 4 (photos_data five_app)), _. split; reflexivity. }
  destruct E as (photos & photo & E & F).
  pose proof (X12_deletion_fills_the_progress_bar (Dev := FakeDevice) false five_app
                locked_device photos photo E) as H.
  cbv zeta in H. rewrite F in H. exact H.
Defined.

(** ** What a scan and a deletion do to the device and to the application *)

Section PipelineFacts.

Context {Dev : Type} {afc : AfcService Dev}.

Lemma filter_app_nil {A : Type} (f : A -> bool) (a b : list A) :
  filter f a = [] -> filter f b = [] -> filter f (a ++ b) = [].
Proof. intros Ha Hb. now rewrite filter_app, Ha, Hb. Qed.

Lemma delete_loop_reads_nothing (dry_run : bool) (photos : list Photo) :
  forall (total i deleted errors : nat) (error_files : list string) (d : Dev),
    filter is_device_read
      (snd (delete_loop dry_run total i photos deleted errors error_files d)) = [].
Proof.
  induction photos as [|photo rest IH]; intros total i deleted errors error_files d;
    [reflexivity|].
  cbn [delete_loop]. io_step.
  destruct dry_run; cbn [negb]; cbv beta iota.
  - specialize (IH total (S i) (deleted + 1) errors error_files d).
    destruct (delete_loop true total (S i) rest _ _ _ d) as [[v d'] evs].
    cbn [snd] in *. cbn. exact IH.
  - destruct (afc_rm (path photo) d) as [[e|[]] d1]; cbv beta iota; cbn [fst snd].
    + specialize (IH total (S i) deleted (errors + 1)
                     (error_files ++ [filename photo]) d1).
      destruct (delete_loop false total (S i) rest _ _ _ d1) as [[v d'] evs].
      cbn [snd] in *. cbn. exact IH.
    + specialize (IH total (S i) (deleted + 1) errors error_files d1).
      destruct (delete_loop false total (S i) rest _ _ _ d1) as [[v d'] evs].
      cbn [snd] in *. cbn. exact IH.
Qed.

Lemma scan_photos_rm_calls (utc_offset : Z) (cutoff_date : option Z) (self : App) (d : Dev) :
  rm_calls (events_of (_scan_photos utc_offset cutoff_date self) d) = [].
Proof.
  unfold _scan_photos, events_of. destruct cutoff_date as [cutoff|]; [|reflexivity].
  unfold bind, ret.
  destruct (afc_listdir "/DCIM" d) as [[e|entries] d1] eqn:Hroot.
  - now rewrite (scan_thread_fatal utc_offset cutoff _ d d1 e Hroot).
  - destruct (scan_thread_run utc_offset cutoff
                {| photos_data := []; thumbnails := [] |} d d1 entries Hroot)
      as (d' & evs & tl & -> & Hp & Hl & Htl & Hs & Hr & Hd).
    cbn [snd]. now rewrite app_nil_r.
Qed.

(** X13. A scan never calls [self.afc.rm], whatever the device answers
    and whether it ends normally or not. A deletion, started through
    [_delete_selected] with any answers, never lists a folder, stats a
    file or reads a file: it makes no device call but [rm]. *)
Theorem X13_scan_never_removes_and_deletion_never_reads (utc_offset : Z)
    (cutoff_date : option Z) (dry_run confirm final_confirm : bool) (self : App) (d : Dev) :
  rm_calls (events_of (_scan_photos utc_offset cutoff_date self) d) = [] /\
  filter is_device_read
    (events_of (_delete_selected dry_run confirm final_confirm self) d) = [].
Proof.
  split; [apply scan_photos_rm_calls|].
  unfold _delete_selected, events_of.
  destruct (_ && _); [reflexivity|].
  destruct (negb confirm); [reflexivity|].
  destruct (negb dry_run && negb final_confirm); [reflexivity|].
  unfold delete_thread. io_step.
  pose proof (delete_loop_reads_nothing dry_run (photos_data self)
                (length (photos_data self)) 0 0 0 [] d) as H.
  destruct (delete_loop dry_run _ 0 (photos_data self) 0 0 [] d) as [[[[n m] fs] d'] evs].
  cbn [snd] in *. now rewrite !app_nil_r.
Qed.

Lemma kept_photos_paths (cutoff_date : Z) (photos : list string)
    (checks : list (Exception + (StatDict * datetime))) :
  map path (kept_photos cutoff_date photos checks)
  = map fst (old_candidates cutoff_date photos checks).
Proof.
  unfold kept_photos, old_candidates. revert checks.
  induction photos as [|p rest IH]; intros [|r checks]; try reflexivity.
  cbn [combine flat_map filter snd]. rewrite map_app, IH.
  destruct r as [e|[st m]]; cbn [is_old]; [reflexivity|].
  destruct (datetime_date m <? cutoff_date)%Z; reflexivity.
Qed.

(** X14. When /DCIM can be listed, the photos a scan finds are exactly
    the candidates whose date could be read and lies before the cutoff,
    in the order of discovery (folder by folder, file by file as the
    device lists them); they are not sorted. Each photo has the base
    name of its path as file name. *)
Theorem X14_scan_result_in_discovery_order (utc_offset cutoff_date : Z) (self : App)
    (d d1 : Dev) (entries : list string) :
  afc_listdir "/DCIM" d = (inr entries, d1) ->
  let found := photos_data (fst (value_of (scan_thread utc_offset cutoff_date self) d)) in
  map path found
    = map fst (old_candidates cutoff_date (scan_candidates entries d1)
                 (scan_checks utc_offset entries d1)) /\
  map filename found = map basename (map path found).
Proof.
  intros Hroot. cbv zeta. unfold value_of.
  destruct (scan_thread_run utc_offset cutoff_date self d d1 entries Hroot)
    as (d' & evs & tl & -> & _).
  cbn [fst photos_data]. unfold scan_kept. split; [apply kept_photos_paths|].
  pose proof (kept_photos_spec cutoff_date (scan_candidates entries d1)
                (scan_checks utc_offset entries d1)) as K.
  induction K as [|photo l (_ & _ & E) _ IH]; [reflexivity|].
  cbn [map]. now rewrite E, IH.
Qed.


Lemma get_selected_all (photos : list Photo) :
  get_selected (map thumbnail_of photos) = map thumbnail_of photos.
Proof.
  unfold get_selected. apply filter_all, Forall_map, Forall_forall. reflexivity.
Qed.

(** X16. After a scan that could list /DCIM, the grid holds one
    thumbnail for each of the first 100 photos found, in order, and
    every box is checked: [get_selected] returns the whole grid. *)
Theorem X16_scan_checks_every_thumbnail (utc_offset cutoff_date : Z) (self : App)
    (d d1 : Dev) (entries : list string) :
  afc_listdir "/DCIM" d = (inr entries, d1) ->
  let self' := fst (value_of (_scan_photos utc_offset (Some cutoff_date) self) d) in
  thumbnails self' = map thumbnail_of (firstn max_thumbnails (photos_data self')) /\
  get_selected (thumbnails self') = thumbnails self' /\
  length (thumbnails self') = Nat.min (length (photos_data self')) max_thumbnails.
Proof.
  intros Hroot. cbv zeta. unfold _scan_photos, value_of, bind, ret.
  destruct (scan_thread_run utc_offset cutoff_date
              {| photos_data := []; thumbnails := [] |} d d1 entries Hroot)
    as (d' & evs & tl & -> & _).
  cbn [fst photos_data thumbnails app]. repeat split.
  - apply get_selected_all.
  - now rewrite length_map, length_firstn, Nat.min_comm.
Qed.

Lemma delete_thread_app (dry_run : bool) (self : App) (d : Dev) :
  fst (value_of (delete_thread dry_run self) d)
  = if negb dry_run
       && (length (removal_failures (removals (photos_data self) d))
           <? length (photos_data self))
    then {| photos_data := []; thumbnails := [] |}
    else self.
Proof.
  unfold value_of. destruct dry_run; cbn [negb andb].
  - now rewrite delete_thread_dry_run.
  - destruct (delete_thread_real_run self d) as (evs & -> & _). cbn [fst].
    pose proof (removal_failures_length (photos_data self) d) as L.
    destruct (Nat.ltb_spec 0 (length (photos_data self)
                              - length (removal_failures (removals (photos_data self) d))));
      destruct (Nat.ltb_spec (length (removal_failures (removals (photos_data self) d)))
                  (length (photos_data self))); try reflexivity; lia.
Qed.

(** X17. A real deletion in which at least one photo was removed empties
    [self.photos_data] and the grid, the photos whose removal failed
    included; when no photo was removed (each removal failed, or there
    was none) the application is left as it was. A dry run always leaves
    it as it was. *)
Theorem X17_deletion_clears_the_list_after_one_success (self : App) (d : Dev) :
  let failures := removal_failures (removals (photos_data self) d) in
  fst (value_of (delete_thread false self) d)
    = (if length failures <? length (photos_data self)
       then {| photos_data := []; thumbnails := [] |}
       else self) /\
  fst (value_of (delete_thread true self) d) = self.
Proof.
  cbv zeta. split; [apply (delete_thread_app false) | apply (delete_thread_app true)].
Qed.


Lemma real_folders_spec (entries : list string) (f : string) :
  In f (real_folders entries) <-> In f entries /\ f <> "."%string /\ f <> ".."%string.
Proof.
  unfold real_folders. rewrite filter_In. cbn [existsb]. rewrite orb_false_r.
  rewrite negb_true_iff, orb_false_iff.
  destruct (String.eqb_spec f "."), (String.eqb_spec f ".."); intuition congruence.
Qed.

(** X19. When /DCIM can be listed, the scan lists /DCIM and then, once
    each and in the order of the listing, the folders named in it other
    than "." and "..": the two dot entries are never listed. *)
Theorem X19_dot_entries_are_not_listed (utc_offset cutoff_date : Z) (self : App)
    (d d1 : Dev) (entries : list string) :
  afc_listdir "/DCIM" d = (inr entries, d1) ->
  let calls := listdir_calls (events_of (scan_thread utc_offset cutoff_date self) d) in
  calls = "/DCIM"%string
          :: map folder_path
               (filter (fun f => negb (String.eqb f ".") && negb (String.eqb f "..")) entries) /\
  ~ In "/DCIM/."%string calls /\
  ~ In "/DCIM/.."%string calls.
Proof.
  intros Hroot. cbv zeta. unfold events_of.
  destruct (scan_thread_run utc_offset cutoff_date self d d1 entries Hroot)
    as (d' & evs & tl & -> & Hp & Hl & Htl & Hs & Hr & Hd).
  cbn [snd]. rewrite Hd.
  assert (E : real_folders entries
              = filter (fun f => negb (String.eqb f ".") && negb (String.eqb f "..")) entries).
  { unfold real_folders. apply filter_ext. intros f. cbn [existsb].
    now rewrite orb_false_r, negb_orb. }
  split; [now rewrite E|].
  split; intros [H|H]; try discriminate H;
    apply in_map_iff in H as (f & Hf & Hin);
    apply real_folders_spec in Hin as (_ & N1 & N2);
    unfold folder_path in Hf; inversion Hf; contradiction.
Qed.



End PipelineFacts.


Lemma X14_witness :
  afc_listdir "/DCIM" example_device
    = (inr ["."; ".."; "100APPLE"; "101APPLE"], example_device) /\
  map filename (photos_data (fst (value_of example_scan example_device)))
    = map basename (map path (photos_data (fst (value_of example_scan example_device)))).
Proof.
  assert (Hroot : afc_listdir "/DCIM" example_device
                  = (inr ["."; ".."; "100APPLE"; "101APPLE"], example_device))
    by reflexivity.
  split; [exact Hroot|].
  exact (proj2 (X14_scan_result_in_discovery_order (Dev := FakeDevice) 0 day_2025_01_01
                  empty_app example_device example_device _ Hroot)).
Defined.


Lemma X16_witness :
  afc_listdir "/DCIM" five_device = (inr ["100APPLE"], five_device) /\
  get_selected (thumbnails five_app) = thumbnails five_app.
Proof.
  assert (Hroot : afc_listdir "/DCIM" five_device = (inr ["100APPLE"], five_device))
    by reflexivity.
  split; [exact Hroot|].
  exact (proj1 (proj2 (X16_scan_checks_every_thumbnail (Dev := FakeDevice) 0
                         day_2025_01_01 empty_app five_device five_device _ Hroot))).
Defined.


Lemma X19_witness :
  afc_listdir "/DCIM" example_device
    = (inr ["."; ".."; "100APPLE"; "101APPLE"], example_device) /\
  listdir_calls (events_of example_scan example_device)
    = ["/DCIM"; "/DCIM/100APPLE"; "/DCIM/101APPLE"]%string.
Proof.
  assert (Hroot : afc_listdir "/DCIM" example_device
                  = (inr ["."; ".."; "100APPLE"; "101APPLE"], example_device))
    by reflexivity.
  split; [exact Hroot|].
  exact (proj1 (X19_dot_entries_are_not_listed (Dev := FakeDevice) 0 day_2025_01_01
                  empty_app example_device example_device _ Hroot)).
Defined.

(** ** The grid *)

Section GridFacts.

Context {Dev : Type} {afc : AfcService Dev}.

Lemma set_all_shows (b : bool) (grid : list Thumbnail) :
  map (fun t => (thumb_path t, thumb_filename t)) (set_all b grid)
  = map (fun t => (thumb_path t, thumb_filename t)) grid.
Proof. unfold set_all. rewrite map_map. reflexivity. Qed.

Lemma set_selected_shows (idx : nat) (b : bool) (grid : list Thumbnail) :
  map (fun t => (thumb_path t, thumb_filename t)) (set_selected idx b grid)
  = map (fun t => (thumb_path t, thumb_filename t)) grid.
Proof.
  revert idx; induction grid as [|t grid IH]; intros [|idx]; cbn; try reflexivity.
  now rewrite IH.
Qed.

Lemma scan_photos_shows (utc_offset : Z) (cutoff_date : option Z) (self : App) (d : Dev) :
  grid_shows_photos self ->
  grid_shows_photos (fst (value_of (_scan_photos utc_offset cutoff_date self) d)).
Proof.
  intros I. unfold _scan_photos, value_of.
  destruct cutoff_date as [cutoff|]; [|exact I].
  unfold bind, ret.
  destruct (afc_listdir "/DCIM" d) as [[e|entries] d1] eqn:Hroot.
  - rewrite (scan_thread_fatal utc_offset cutoff _ d d1 e Hroot). reflexivity.
  - destruct (scan_thread_run utc_offset cutoff
                {| photos_data := []; thumbnails := [] |} d d1 entries Hroot)
      as (d' & evs & tl & -> & _).
    unfold grid_shows_photos. cbn [fst photos_data thumbnails app].
    rewrite map_map. reflexivity.
Qed.

Lemma delete_selected_shows (dry_run confirm final_confirm : bool) (self : App) (d : Dev) :
  grid_shows_photos self ->
  grid_shows_photos
    (fst (value_of (_delete_selected dry_run confirm final_confirm self) d)).
Proof.
  intros I. unfold _delete_selected, value_of.
  destruct (_ && _); [exact I|].
  destruct (negb confirm); [exact I|].
  destruct (negb dry_run && negb final_confirm); [exact I|].
  unfold bind, ret.
  pose proof (delete_thread_app dry_run self d) as A. unfold value_of in A.
  destruct (delete_thread dry_run self d) as [[[self' report] d'] evs].
  cbn [fst] in *. rewrite A.
  destruct (negb dry_run && _); [reflexivity | exact I].
Qed.

Lemma app_invariant (self : App) : app_reachable self -> grid_shows_photos self.
Proof.
  induction 1 as [|self self' R I S]; [reflexivity|].
  destruct S.
  - now apply scan_photos_shows.
  - now apply delete_selected_shows.
  - unfold grid_shows_photos, _select_all, select_all in *. cbn [fst photos_data thumbnails].
    now rewrite set_all_shows.
  - unfold grid_shows_photos, _deselect_all, deselect_all in *.
    cbn [fst photos_data thumbnails]. now rewrite set_all_shows.
  - unfold grid_shows_photos in *. cbn [photos_data thumbnails].
    now rewrite set_selected_shows.
Qed.

Lemma shown_length (self : App) :
  grid_shows_photos self ->
  length (thumbnails self) = Nat.min (length (photos_data self)) max_thumbnails.
Proof.
  intros I. apply (f_equal (@length _)) in I.
  rewrite !length_map, length_firstn in I. lia.
Qed.

(** X20. Whatever the user does (scans, deletions real or simulated,
    Select All, Deselect All, clicks on boxes, in any order and on any
    device), the grid always shows the first 100 photos of
    [self.photos_data], in order, with their paths and names; so it is
    empty whenever there is no photo, and the "No photos selected"
    warning of [_delete_selected] is shown exactly when there is no
    photo, not when no box is checked. *)
Theorem X20_grid_always_shows_the_first_photos (self : App) :
  app_reachable self ->
  grid_shows_photos self /\
  length (thumbnails self) = Nat.min (length (photos_data self)) max_thumbnails /\
  ((length (get_selected (thumbnails self)) =? 0) && (length (photos_data self) =? 0)
   = (length (photos_data self) =? 0)).
Proof.
  intros R. pose proof (app_invariant self R) as I.
  pose proof (shown_length self I) as L.
  split; [exact I|]. split; [exact L|].
  destruct (Nat.eqb_spec (length (photos_data self)) 0) as [E|E];
    [|now rewrite andb_false_r].
  rewrite E in L. cbn in L. destruct (thumbnails self); [reflexivity | discriminate L].
Qed.

Lemma get_selected_none (grid : list Thumbnail) : get_selected (deselect_all grid) = [].
Proof.
  unfold get_selected, deselect_all, set_all. apply filter_none, Forall_map, Forall_forall.
  reflexivity.
Qed.

Lemma get_selected_every (grid : list Thumbnail) :
  get_selected (select_all grid) = select_all grid.
Proof.
  unfold get_selected, select_all, set_all. apply filter_all, Forall_map, Forall_forall.
  reflexivity.
Qed.

(** X21. After Select All every box of the grid is checked, and after
    Deselect All none is; neither changes the photos. The label of
    Select All gives the number of photos, while the boxes checked are
    those of the grid, at most 100: with more than 100 photos the label
    says more than is checked. *)
Theorem X21_select_all_and_deselect_all (self : App) :
  app_reachable self ->
  let '(all, all_label) := _select_all self in
  let '(none, none_label) := _deselect_all self in
  get_selected (thumbnails all) = thumbnails all /\
  length (get_selected (thumbnails all))
    = Nat.min (length (photos_data self)) max_thumbnails /\
  all_label = ("Selected: " ++ str (length (photos_data self)))%string /\
  get_selected (thumbnails none) = [] /\
  none_label = "Selected: 0"%string /\
  photos_data all = photos_data self /\
  photos_data none = photos_data self.
Proof.
  intros R. unfold _select_all, _deselect_all. cbn [thumbnails photos_data].
  pose proof (shown_length self (app_invariant self R)) as L.
  rewrite get_selected_every, get_selected_none. repeat split.
  unfold select_all, set_all. now rewrite length_map.
Qed.

End GridFacts.

Section GridLayout.

Lemma grid_cell_index (idx : nat) :
  4 * fst (grid_cell idx) + snd (grid_cell idx) = idx /\ snd (grid_cell idx) < 4.
Proof.
  unfold grid_cell. cbn [fst snd].
  pose proof (Nat.div_mod_eq idx 4). pose proof (Nat.mod_upper_bound idx 4). lia.
Qed.

(** X22. The thumbnails are laid out four to a row in the order they are
    added: the column of each is below 4, the cell of the thumbnail
    added at position [idx] gives [idx] back as 4 * row + column, and no
    two thumbnails of a grid share a cell. *)
Theorem X22_thumbnails_do_not_share_a_cell (grid : list Thumbnail) :
  map (fun cell => 4 * fst cell + snd cell) (grid_cells grid) = seq 0 (length grid) /\
  Forall (fun cell => snd cell < 4) (grid_cells grid) /\
  NoDup (grid_cells grid).
Proof.
  unfold grid_cells.
  assert (M : forall l, map (fun cell => 4 * fst cell + snd cell) (map grid_cell l) = l).
  { induction l as [|i l IH]; [reflexivity|]. cbn [map].
    now rewrite IH, (proj1 (grid_cell_index i)). }
  split; [apply M|]. split.
  - apply Forall_map, Forall_forall. intros i _. apply grid_cell_index.
  - apply (NoDup_map_inv (fun cell => 4 * fst cell + snd cell)).
    rewrite M. apply seq_NoDup.
Qed.






End GridLayout.

Lemma X20_witness :
  app_reachable five_app_without_second /\
  length (thumbnails five_app_without_second) = 5.
Proof.
  assert (R : app_reachable five_app_without_second).
  { apply (app_next five_app).
    - apply (app_next empty_app); [apply app_start|].
      apply (step_scan 0 (Some day_2025_01_01) five_device empty_app).
    - apply (step_click 1 false five_app). }
  split; [exact R|].
  exact (proj1 (proj2 (X20_grid_always_shows_the_first_photos (Dev := FakeDevice) _ R))).
Defined.

Lemma X21_witness :
  app_reachable five_app /\
  get_selected (thumbnails (fst (_deselect_all five_app))) = [] /\
  snd (_select_all five_app) = "Selected: 5"%string.
Proof.
  assert (R : app_reachable five_app).
  { apply (app_next empty_app); [apply app_start|].
    apply (step_scan 0 (Some day_2025_01_01) five_device empty_app). }
  split; [exact R|].
  pose proof (X21_select_all_and_deselect_all (Dev := FakeDevice) five_app R) as H.
  destruct (_select_all five_app) as [all all_label] eqn:Ea.
  destruct (_deselect_all five_app) as [none none_label] eqn:En.
  destruct H as (_ & _ & Hl & Hn & _).
  cbn [fst snd]. split; [exact Hn | exact Hl].
Defined.

